(** * StitchFlow (DigitalTailor): the order core of App.tsx, verified

    A shallow embedding of the business logic of the tailoring-shop
    application: the records and enumerations of [types.ts], and from
    [App.tsx] the customer login, the order creation, status, message
    and photo handlers, the search filters of the tailor dashboard, the
    payment derivation of the order form and the measurement grid of
    the two order views; then the registration of customers, the screen
    App renders, the customer portal, the customer name and the order
    number of an order card, and a session of events on the store, with
    the invariants the handlers keep.

    Conventions of the embedding.
    - A JavaScript [string] is a [string]: a finite sequence of code
      units, compared with [===] by [String.eqb].
    - A JavaScript [number] is an IEEE 754 binary64 value: [float].
    - [undefined] is [None]; an optional field [f?: T] is an [option T].
    - The Firestore collection "orders" is a finite map from document
      id to document data; a rejected promise is [None].
    - The clock ([new Date().toISOString()]), the random source
      ([Math.random().toString(36)]) and the id the store assigns to a
      new document are arguments of the handler that reads them. *)

From Stdlib Require Import List String Ascii Bool Floats PeanoNat.
From stdpp Require Import base option gmap strings fin_maps.
From Stdlib Require Import ZArith Lia.
Import ListNotations.

Local Open Scope string_scope.
Local Open Scope list_scope.

(** ** JavaScript primitives used by the application *)

Module Js.

(** [String.prototype.includes(needle)]: [needle] occurs in the receiver
    as a contiguous run of code units. *)
Fixpoint includes (s needle : string) : bool :=
  String.prefix needle s ||
  match s with
  | EmptyString => false
  | String _ s' => includes s' needle
  end.

(** [String.prototype.substr(from, len)] for non-negative arguments. *)
Definition substr (s : string) (from len : nat) : string :=
  String.substring from len s.

(** ASCII case mapping of one code unit: [A]..[Z] to [a]..[z]. *)
Definition lowerUnit (c : ascii) : ascii :=
  let n := nat_of_ascii c in
  if (65 <=? n)%nat && (n <=? 90)%nat then ascii_of_nat (n + 32) else c.

Definition isUpperUnit (c : ascii) : bool :=
  let n := nat_of_ascii c in (65 <=? n)%nat && (n <=? 90)%nat.

(** A case mapping of the ASCII letters only, which agrees with
    [String.prototype.toLowerCase] on ASCII text and not beyond; the
    instance the examples run on.  The theorems on the search take the
    case mapping as a parameter and hold for every one, the built-in
    included. *)
Fixpoint toLowerCaseAscii (s : string) : string :=
  match s with
  | EmptyString => EmptyString
  | String c s' => String (lowerUnit c) (toLowerCaseAscii s')
  end.

(** [s.replace(/([A-Z])/g, ' $1')]: a space before every capital. *)
Fixpoint spaceBeforeCapitals (s : string) : string :=
  match s with
  | EmptyString => EmptyString
  | String c s' =>
      if isUpperUnit c
      then String " "%char (String c (spaceBeforeCapitals s'))
      else String c (spaceBeforeCapitals s')
  end.

(** The value of a callback typed [boolean | undefined]. *)
Definition toBoolean (v : option bool) : bool :=
  match v with
  | Some b => b
  | None => false
  end.

(** [a || b] where [a] is a boolean and [b] may be [undefined]: the
    left operand when it is truthy, else the right operand as it is. *)
Definition or_else (a : bool) (b : option bool) : option bool :=
  if a then Some true else b.

(** [xs || []] for an optional array. *)
Definition orEmpty {A} (xs : option (list A)) : list A :=
  match xs with
  | Some l => l
  | None => []
  end.

(** [!s] for a string: only the empty string is falsy. *)
Definition isEmptyString (s : string) : bool :=
  match s with
  | EmptyString => true
  | String _ _ => false
  end.

(** Truthiness of a number: [0], [-0] and [NaN] are falsy. *)
Definition numberTruthy (x : float) : bool :=
  negb (PrimFloat.eqb x 0%float || PrimFloat.is_nan x).

End Js.

(** ** types.ts *)

Inductive OrderStatus := PENDING | STITCHING | READY | DELIVERED.
Inductive PaymentStatus := PAID | UNPAID.
Inductive UserRole := TAILOR | CUSTOMER.

Record PaymentDetails := {
  stitchingPrice : float;
  advancePaid : float;
  remainingAmount : float;
  pstatus : PaymentStatus
}.

Record Measurements := {
  suitType : string;
  shoulder : string;
  chest : string;
  waist : string;
  neck : string;
  armLength : string;
  wrist : string;
  shirtLength : string;
  shalwarLength : string;
  paincha : string;
  damain : string;
  numPockets : float;
  numSuits : float;
  clothLengthGiven : string;
  measurementDate : string;
  deliveryDate : string;
  specialNotes : string
}.

Record Message := {
  mid : string;
  urdu : string;
  english : string;
  timestamp : string
}.

(** The data of a document of the "orders" collection: an [Order]
    without its [id], plus the [createdAt] the creation path writes. *)
Record OrderDoc := {
  customerId : string;
  measurements : Measurements;
  status : OrderStatus;
  payment : PaymentDetails;
  messages : list Message;
  photos : option (list string);
  createdAt : string
}.

(** [{ id: d.id, ...d.data() } as Order]. *)
Record Order := {
  id : string;
  data : OrderDoc
}.

Record Customer := {
  cid : string;
  name : string;
  fatherName : string;
  address : string;
  cnic : string;
  mobileNumber : string;
  profilePicture : option string
}.

Record User := {
  role : UserRole;
  uid : option string
}.

Record AppState := {
  customers : list Customer;
  orders : list Order;
  currentUser : option User
}.

(** ** OrderForm: the payment sent with a new order *)

Module OrderForm.

(** The form state [pay]. *)
Record Pay := {
  pay_stitchingPrice : float;
  pay_advancePaid : float
}.

Definition due (pay : Pay) : float :=
  (pay_stitchingPrice pay - pay_advancePaid pay)%float.

(** [{ ...pay, remainingAmount: due,
       status: due <= 0 ? PaymentStatus.PAID : PaymentStatus.UNPAID }] *)
Definition derivePayment (price advance : float) : PaymentDetails :=
  let pay := {| pay_stitchingPrice := price; pay_advancePaid := advance |} in
  {| stitchingPrice := pay_stitchingPrice pay;
     advancePaid := pay_advancePaid pay;
     remainingAmount := due pay;
     pstatus := if (due pay <=? 0)%float then PAID else UNPAID |}.

(** The ten inputs of the measurement block of the form. *)
Definition measurementInputs : list string :=
  ["shoulder"; "chest"; "waist"; "neck"; "armLength"; "wrist";
   "shirtLength"; "shalwarLength"; "paincha"; "damain"].

(** The initial form state, with [SUIT_TYPES[0]] and today's date as
    arguments. *)
Definition initialMeasurements (suit0 today : string) : Measurements :=
  {| suitType := suit0; shoulder := ""; chest := ""; waist := "";
     neck := ""; armLength := ""; wrist := ""; shirtLength := "";
     shalwarLength := ""; paincha := ""; damain := "";
     numPockets := 2%float; numSuits := 1%float; clothLengthGiven := "";
     measurementDate := today; deliveryDate := ""; specialNotes := "" |}.

(** [quickFill]: [{ ...meas, shoulder: '18', ... }]. *)
Definition quickFill (meas : Measurements) : Measurements :=
  {| suitType := suitType meas; shoulder := "18"; chest := "42";
     waist := "38"; neck := "15.5"; armLength := "24"; wrist := "9.5";
     shirtLength := "39"; shalwarLength := "40"; paincha := "8.5";
     damain := "22";
     numPockets := numPockets meas; numSuits := numSuits meas;
     clothLengthGiven := clothLengthGiven meas;
     measurementDate := measurementDate meas;
     deliveryDate := deliveryDate meas;
     specialNotes := specialNotes meas |}.

End OrderForm.

(** ** The Firestore collection "orders" *)

Module Firestore.

(** [updateDoc(doc(db, "orders", id), patch)]: merges the fields of
    [patch] into the document; the promise is rejected when no document
    has that id. *)
Definition updateDoc (col : gmap string OrderDoc) (i : string)
    (patch : OrderDoc -> OrderDoc) : option (gmap string OrderDoc) :=
  match col !! i with
  | Some d => Some (<[i := patch d]> col)
  | None => None
  end.

(** [addDoc(collection(db, "orders"), d)], the store choosing [newId]. *)
Definition addDoc (col : gmap string OrderDoc) (newId : string)
    (d : OrderDoc) : gmap string OrderDoc :=
  <[newId := d]> col.

(** The patches the application sends. *)
Definition patchStatus (s : OrderStatus) (d : OrderDoc) : OrderDoc :=
  {| customerId := customerId d; measurements := measurements d;
     status := s; payment := payment d; messages := messages d;
     photos := photos d; createdAt := createdAt d |}.

Definition patchMessages (ms : list Message) (d : OrderDoc) : OrderDoc :=
  {| customerId := customerId d; measurements := measurements d;
     status := status d; payment := payment d; messages := ms;
     photos := photos d; createdAt := createdAt d |}.

Definition patchPhotos (ps : list string) (d : OrderDoc) : OrderDoc :=
  {| customerId := customerId d; measurements := measurements d;
     status := status d; payment := payment d; messages := messages d;
     photos := Some ps; createdAt := createdAt d |}.

End Firestore.

(** ** App: state and handlers *)

Module App.

(** The argument of [handleAddOrder]. *)
Record OrderData := {
  od_customerId : string;
  od_measurements : Measurements;
  od_payment : PaymentDetails
}.

(** The [onSnapshot] callback of the "orders" collection:
    [snapshot.docs.map(d => ({ id: d.id, ...d.data() }))]. *)
Definition ordersOfSnapshot (col : gmap string OrderDoc) : list Order :=
  List.map (fun d => {| id := fst d; data := snd d |}) (map_to_list col).

Definition setCurrentUser (u : option User) (st : AppState) : AppState :=
  {| customers := customers st; orders := orders st; currentUser := u |}.

Definition setOrders (os : list Order) (st : AppState) : AppState :=
  {| customers := customers st; orders := os; currentUser := currentUser st |}.

Definition loginAsTailor (st : AppState) : AppState :=
  setCurrentUser (Some {| role := TAILOR; uid := None |}) st.

(** Returns the boolean and the state after the call. *)
Definition loginAsCustomer (st : AppState) (mobile : string)
    : bool * AppState :=
  match find (fun c => String.eqb (mobileNumber c) mobile) (customers st) with
  | Some customer =>
      (true,
       setCurrentUser (Some {| role := CUSTOMER; uid := Some (cid customer) |}) st)
  | None => (false, st)
  end.

Definition logout (st : AppState) : AppState := setCurrentUser None st.

(** The document [handleAddOrder] hands to [addDoc]. *)
Definition newOrderDoc (now : string) (orderData : OrderData) : OrderDoc :=
  {| customerId := od_customerId orderData;
     measurements := od_measurements orderData;
     status := PENDING;
     payment := od_payment orderData;
     messages := [];
     photos := Some [];
     createdAt := now |}.

Definition handleAddOrder (col : gmap string OrderDoc) (newId now : string)
    (orderData : OrderData) : gmap string OrderDoc :=
  Firestore.addDoc col newId (newOrderDoc now orderData).

Definition handleUpdateStatus (col : gmap string OrderDoc) (i : string)
    (s : OrderStatus) : option (gmap string OrderDoc) :=
  Firestore.updateDoc col i (Firestore.patchStatus s).

(** [random36] is [Math.random().toString(36)], [now] is
    [new Date().toISOString()]. *)
Definition newMessage (random36 now u e : string) : Message :=
  {| mid := Js.substr random36 2 9; urdu := u; english := e;
     timestamp := now |}.

Definition handleSendMessage (os : list Order) (col : gmap string OrderDoc)
    (random36 now : string) (i u e : string)
    : option (gmap string OrderDoc) :=
  match find (fun o => String.eqb (id o) i) os with
  | None => Some col
  | Some order =>
      Firestore.updateDoc col i
        (Firestore.patchMessages
           (newMessage random36 now u e :: messages (data order)))
  end.

Definition handlePhotoUpdate (col : gmap string OrderDoc) (i : string)
    (ps : list string) : option (gmap string OrderDoc) :=
  Firestore.updateDoc col i (Firestore.patchPhotos ps).

End App.

(** ** TailorDashboard: the two search filters *)

Module TailorDashboard.
Section Filters.

(** [String.prototype.toLowerCase], whatever its case mapping. *)
Variable toLowerCase : string -> string.

(** The callback of [state.customers.filter]. *)
Definition customerMatches (searchTerm low : string) (c : Customer) : bool :=
  Js.includes (toLowerCase (name c)) low
  || Js.includes (mobileNumber c) searchTerm
  || Js.includes (toLowerCase (fatherName c)) low.

Definition filteredCustomers (state : AppState) (searchTerm : string)
    : list Customer :=
  if Js.isEmptyString searchTerm then customers state
  else
    let low := toLowerCase searchTerm in
    List.filter (customerMatches searchTerm low) (customers state).

(** The callback of [state.orders.filter]; [customer?.name...] is
    [undefined] when [find] finds no customer. *)
Definition orderMatches (state : AppState) (low : string) (o : Order)
    : option bool :=
  let customer :=
    find (fun c => String.eqb (cid c) (customerId (data o))) (customers state) in
  Js.or_else (Js.includes (toLowerCase (id o)) low)
    (option_map (fun c => Js.includes (toLowerCase (name c)) low) customer).

Definition filteredOrders (state : AppState) (searchTerm : string)
    : list Order :=
  if Js.isEmptyString searchTerm then orders state
  else
    let low := toLowerCase searchTerm in
    List.filter (fun o => Js.toBoolean (orderMatches state low o))
      (orders state).

End Filters.
End TailorDashboard.

(** ** The measurement grid and the photo upload of the two order views *)

Inductive FieldValue :=
| VStr (s : string)
| VNum (x : float).

(** [Object.entries(order.measurements)], in the order the form creates
    the properties. *)
Definition entries (m : Measurements) : list (string * FieldValue) :=
  [("suitType", VStr (suitType m));
   ("shoulder", VStr (shoulder m));
   ("chest", VStr (chest m));
   ("waist", VStr (waist m));
   ("neck", VStr (neck m));
   ("armLength", VStr (armLength m));
   ("wrist", VStr (wrist m));
   ("shirtLength", VStr (shirtLength m));
   ("shalwarLength", VStr (shalwarLength m));
   ("paincha", VStr (paincha m));
   ("damain", VStr (damain m));
   ("numPockets", VNum (numPockets m));
   ("numSuits", VNum (numSuits m));
   ("clothLengthGiven", VStr (clothLengthGiven m));
   ("measurementDate", VStr (measurementDate m));
   ("deliveryDate", VStr (deliveryDate m));
   ("specialNotes", VStr (specialNotes m))].

(** [v || '-']. *)
Definition orDash (v : FieldValue) : FieldValue :=
  match v with
  | VStr s => if Js.isEmptyString s then VStr "-" else v
  | VNum x => if Js.numberTruthy x then v else VStr "-"
  end.

(** One box of the grid: its React key, its caption and its value. *)
Record Cell := {
  cell_key : string;
  cell_label : string;
  cell_value : FieldValue
}.

(** The keys of the boxes that are rendered ([null] renders nothing). *)
Definition renderedKeys (grid : list (option Cell)) : list string :=
  omap (option_map cell_key) grid.

Module OrderCard.

Definition metadataKeys : list string :=
  ["specialNotes"; "measurementDate"; "deliveryDate"; "suitType"].

Definition measurementGrid (order : Order) : list (option Cell) :=
  List.map
    (fun kv =>
       if existsb (String.eqb (fst kv)) metadataKeys then None
       else Some {| cell_key := fst kv;
                    cell_label := Js.spaceBeforeCapitals (fst kv);
                    cell_value := orDash (snd kv) |})
    (entries (measurements (data order))).

(** The argument [reader.onload] passes to [onPhotoUpdate]. *)
Definition uploadedPhotos (order : Order) (result : string) : list string :=
  Js.orEmpty (photos (data order)) ++ [result].

End OrderCard.

Module CustomerOrderView.

Definition metadataKeys : list string :=
  ["specialNotes"; "measurementDate"; "deliveryDate"; "suitType"].

Definition measurementGrid (order : Order) : list (option Cell) :=
  List.map
    (fun kv =>
       if existsb (String.eqb (fst kv)) metadataKeys then None
       else Some {| cell_key := fst kv;
                    cell_label := Js.spaceBeforeCapitals (fst kv);
                    cell_value := orDash (snd kv) |})
    (entries (measurements (data order))).

Definition uploadedPhotos (order : Order) (result : string) : list string :=
  Js.orEmpty (photos (data order)) ++ [result].

End CustomerOrderView.

(** The dashboards bind [onPhotoUpdate] of a view to
    [handlePhotoUpdate(order.id, p)]. *)
Definition tailorUploadsPhoto (col : gmap string OrderDoc) (order : Order)
    (result : string) : option (gmap string OrderDoc) :=
  App.handlePhotoUpdate col (id order) (OrderCard.uploadedPhotos order result).

Definition customerUploadsPhoto (col : gmap string OrderDoc) (order : Order)
    (result : string) : option (gmap string OrderDoc) :=
  App.handlePhotoUpdate col (id order)
    (CustomerOrderView.uploadedPhotos order result).

(** ** Registration: the "customers" collection *)

Module Registration.

(** [Omit<Customer, 'id'>]: the data of a document of "customers". *)
Record CustomerDoc := {
  cd_name : string;
  cd_fatherName : string;
  cd_address : string;
  cd_cnic : string;
  cd_mobileNumber : string;
  cd_profilePicture : option string
}.

(** [handleAddCustomer]: [addDoc(collection(db, "customers"), customer)],
    the store choosing [newId]. *)
Definition handleAddCustomer (col : gmap string CustomerDoc) (newId : string)
    (customer : CustomerDoc) : gmap string CustomerDoc :=
  <[newId := customer]> col.

(** [{ id: d.id, ...d.data() } as Customer]. *)
Definition withId (d : string * CustomerDoc) : Customer :=
  {| cid := fst d;
     name := cd_name (snd d);
     fatherName := cd_fatherName (snd d);
     address := cd_address (snd d);
     cnic := cd_cnic (snd d);
     mobileNumber := cd_mobileNumber (snd d);
     profilePicture := cd_profilePicture (snd d) |}.

(** The [onSnapshot] callback of the "customers" collection. *)
Definition customersOfSnapshot (col : gmap string CustomerDoc)
    : list Customer :=
  List.map withId (map_to_list col).

(** [setCustomers(custData)]. *)
Definition setCustomers (cs : list Customer) (st : AppState) : AppState :=
  {| customers := cs; orders := orders st; currentUser := currentUser st |}.

End Registration.

(** ** CustomerDashboard and the screen App renders *)

Module CustomerDashboard.

(** [x === customerId], where [customerId] is [currentUser.id!] and may
    be [undefined]. *)
Definition isId (loggedId : option string) (x : string) : bool :=
  match loggedId with
  | Some k => String.eqb x k
  | None => false
  end.

Inductive View :=
| AuthenticationError
| Portal (customer : Customer) (shown : list Order).

(** The customer found by [find], the orders kept by
    [state.orders.filter(o => o.customerId === customerId)], and the
    early return when no customer is found. *)
Definition render (state : AppState) (loggedId : option string) : View :=
  let customer := find (fun c => isId loggedId (cid c)) (customers state) in
  let shown :=
    List.filter (fun o => isId loggedId (customerId (data o))) (orders state) in
  match customer with
  | None => AuthenticationError
  | Some c => Portal c shown
  end.

End CustomerDashboard.

Module AppScreen.

Inductive Screen :=
| Spinner
| LoginView
| TailorDashboard
| CustomerDashboard (v : CustomerDashboard.View).

(** The [return]s of [App]: the spinner while loading, the login view
    without a user, then the dashboard of the user's role. *)
Definition render (loading : bool) (state : AppState) : Screen :=
  if loading then Spinner
  else
    match currentUser state with
    | None => LoginView
    | Some u =>
        match role u with
        | TAILOR => TailorDashboard
        | CUSTOMER => CustomerDashboard (CustomerDashboard.render state (uid u))
        end
    end.

End AppScreen.

(** ** The orders tab and the new-order dialog of TailorDashboard *)

Module OrdersTab.

(** [customer?.name || 'Unknown'], the [customerName] of an order card. *)
Definition customerName (state : AppState) (order : Order) : string :=
  match find (fun c => String.eqb (cid c) (customerId (data order)))
             (customers state) with
  | Some customer =>
      if Js.isEmptyString (name customer) then "Unknown" else name customer
  | None => "Unknown"
  end.

(** [order.id.substr(0, 6)], shown after "ORDER #" by both order views. *)
Definition orderNumber (order : Order) : string :=
  Js.substr (id order) 0 6.

(** What the form submits, [{ measurements: meas, payment: {...} }], with
    the [customerId] the dashboard adds:
    [onAddOrder({ ...d, customerId: selectedCustomerId })]. *)
Definition submittedOrder (selectedCustomerId : string) (meas : Measurements)
    (price advance : float) : App.OrderData :=
  {| App.od_customerId := selectedCustomerId;
     App.od_measurements := meas;
     App.od_payment := OrderForm.derivePayment price advance |}.

End OrdersTab.

(** ** Colours of the customer's order view *)

Module OrderColours.

Inductive Colour := red | green.

(** [order.payment.remainingAmount > 0 ? 'text-red-600' : 'text-green-600']. *)
Definition pendingAmount (p : PaymentDetails) : Colour :=
  if (0 <? remainingAmount p)%float then red else green.

End OrderColours.

(** ** A session: the store, the local list, and the events *)

Module Session.

(** The "orders" collection and the [orders] state the handlers and the
    views of the current render read. *)
Record World := {
  store : gmap string OrderDoc;
  view : list Order
}.

Definition initial : World := {| store := ∅; view := [] |}.

(** One event.  The subscription delivers the collection; the tailor
    creates an order from the form, the store choosing an unused id; an
    order card or a customer view of a listed order fires a handler,
    whose update the store accepts. *)
Inductive step : World -> World -> Prop :=
| step_snapshot w :
    step w {| store := store w; view := App.ordersOfSnapshot (store w) |}
| step_add w newId now selected meas price advance :
    store w !! newId = None ->
    step w {| store := App.handleAddOrder (store w) newId now
                         (OrdersTab.submittedOrder selected meas price advance);
              view := view w |}
| step_status w o s store' :
    In o (view w) ->
    App.handleUpdateStatus (store w) (id o) s = Some store' ->
    step w {| store := store'; view := view w |}
| step_message w o random36 now u e store' :
    In o (view w) ->
    App.handleSendMessage (view w) (store w) random36 now (id o) u e
    = Some store' ->
    step w {| store := store'; view := view w |}
| step_photo_tailor w o result store' :
    In o (view w) ->
    tailorUploadsPhoto (store w) o result = Some store' ->
    step w {| store := store'; view := view w |}
| step_photo_customer w o result store' :
    In o (view w) ->
    customerUploadsPhoto (store w) o result = Some store' ->
    step w {| store := store'; view := view w |}.

(** The worlds a session can be in. *)
Definition reachable (w : World) : Prop := rtc step initial w.

(** The fields of an order that no handler writes. *)
Definition sameFixedFields (d d' : OrderDoc) : Prop :=
  customerId d' = customerId d /\
  measurements d' = measurements d /\
  payment d' = payment d /\
  createdAt d' = createdAt d.

(** The payment is the one the form derives from its own price and
    advance, and the photo list is present. *)
Definition wellFormed (d : OrderDoc) : Prop :=
  payment d =
  OrderForm.derivePayment (stitchingPrice (payment d)) (advancePaid (payment d))
  /\ photos d <> None.

End Session.

(** ** Sample data *)

Module Sample.

Definition ali : Customer :=
  {| cid := "c1"; name := "Ali Khan"; fatherName := "Akbar";
     address := "Lahore"; cnic := ""; mobileNumber := "03001234567";
     profilePicture := None |}.

Definition meas : Measurements :=
  OrderForm.quickFill
    (OrderForm.initialMeasurements "Shalwar Kameez" "2024-01-01").

Definition created : string := "2024-01-01T09:00:00.000Z".

(** An order of Ali and an order whose customer is not in the list. *)
Definition doc : OrderDoc :=
  App.newOrderDoc created
    {| App.od_customerId := "c1"; App.od_measurements := meas;
       App.od_payment := OrderForm.derivePayment 1500 500 |}.

Definition orphanDoc : OrderDoc :=
  App.newOrderDoc created
    {| App.od_customerId := "gone"; App.od_measurements := meas;
       App.od_payment := OrderForm.derivePayment 1500 2000 |}.

Definition order1 : Order := {| id := "ORD1abc"; data := doc |}.
Definition order2 : Order := {| id := "ORD2xyz"; data := orphanDoc |}.

Definition col : gmap string OrderDoc :=
  Firestore.addDoc (Firestore.addDoc ∅ "ORD1abc" doc) "ORD2xyz" orphanDoc.

Definition state : AppState :=
  {| customers := [ali]; orders := [order1; order2]; currentUser := None |}.

End Sample.

(** A session in which the tailor has created one order and the
    subscription has delivered it. *)
Module SampleSession.

Definition store1 : gmap string OrderDoc :=
  App.handleAddOrder ∅ "ORD1abc" Sample.created
    (OrdersTab.submittedOrder "c1" Sample.meas 1500 500).

Definition world0 : Session.World :=
  {| Session.store := store1; Session.view := [] |}.

Definition world1 : Session.World :=
  {| Session.store := store1; Session.view := App.ordersOfSnapshot store1 |}.

End SampleSession.

(** Two customers registered with the same mobile number. *)
Module SampleTwins.

Definition twin : Customer :=
  {| cid := "c2"; name := "Ali Raza"; fatherName := "Aslam";
     address := "Multan"; cnic := ""; mobileNumber := "03001234567";
     profilePicture := None |}.

Definition state : AppState :=
  {| customers := [Sample.ali; twin]; orders := orders Sample.state;
     currentUser := None |}.

End SampleTwins.

(** ** Vocabulary of the binary64 facts *)

Module FloatSpec.

(** A finite number or an infinity of sign [s]. *)
Definition signed (s : bool) (r : spec_float) : Prop :=
  (exists m e, r = S754_finite s m e) \/ r = S754_infinity s.

(** The integer that [SFsub] normalizes for two finite operands: the
    difference of the signed mantissas, aligned on the lower exponent. *)
Definition sub_mantissa (sx : bool) (mx : positive) (ex : Z)
    (sy : bool) (my : positive) (ey : Z) : Z :=
  let ez := Z.min ex ey in
  (cond_Zopp sx (Z.pos (fst (shl_align mx ex ez)))
   - cond_Zopp sy (Z.pos (fst (shl_align my ey ez))))%Z.

Definition finite_or_zero (x : spec_float) : Prop :=
  match x with
  | S754_zero _ | S754_finite _ _ _ => True
  | _ => False
  end.

End FloatSpec.

(** A rendered value is not blank: a non-empty text or a truthy number. *)
Definition notBlank (v : FieldValue) : Prop :=
  match v with
  | VStr s => s <> EmptyString
  | VNum x => Js.numberTruthy x = true
  end.

(** ** Vocabulary of the specification *)

(** [d'] is [d] but for its messages. *)
Definition sameExceptMessages (d d' : OrderDoc) : Prop :=
  customerId d' = customerId d /\
  measurements d' = measurements d /\
  status d' = status d /\
  payment d' = payment d /\
  photos d' = photos d /\
  createdAt d' = createdAt d.

(** [d'] is [d] but for its photos. *)
Definition sameExceptPhotos (d d' : OrderDoc) : Prop :=
  customerId d' = customerId d /\
  measurements d' = measurements d /\
  status d' = status d /\
  payment d' = payment d /\
  messages d' = messages d /\
  createdAt d' = createdAt d.


(** [needle] is a substring of [s]. *)
Definition isSubstring (needle s : string) : Prop :=
  exists pre post : string, s = String.append pre (String.append needle post).

(** [term] is a substring of [field] once both are lower-cased: the
    case-insensitive containment of the search. *)
Definition containsIgnoringCase (toLowerCase : string -> string)
    (field term : string) : Prop :=
  isSubstring (toLowerCase term) (toLowerCase field).

(** Case-sensitive containment. *)
Definition containsRaw (field term : string) : Prop :=
  isSubstring term field.

(** * Properties *)

(** ** Strings *)

Lemma prefix_append (n s : string) :
  String.prefix n s = true <-> exists post, s = String.append n post.
Proof.
  revert s. induction n as [|a n IH]; intros s.
  - split; [intros _; exists s; reflexivity | destruct s; reflexivity].
  - destruct s as [|b s]; simpl.
    + split; [discriminate | intros [post H]; discriminate].
    + destruct (ascii_dec a b) as [->|Hab].
      * rewrite IH. split; intros [post H]; exists post.
        -- rewrite H. reflexivity.
        -- injection H as H. exact H.
      * split; [discriminate|]. intros [post H]. injection H as H1 H2.
        congruence.
Qed.

Lemma includes_nil (needle : string) :
  Js.includes EmptyString needle = String.prefix needle EmptyString.
Proof. simpl. apply orb_false_r. Qed.

Lemma includes_cons (a : ascii) (s needle : string) :
  Js.includes (String a s) needle =
  String.prefix needle (String a s) || Js.includes s needle.
Proof. reflexivity. Qed.

Lemma includes_isSubstring (s needle : string) :
  Js.includes s needle = true <-> isSubstring needle s.
Proof.
  unfold isSubstring. induction s as [|a s IH].
  - rewrite includes_nil, prefix_append. split.
    + intros [post H]. exists EmptyString, post. exact H.
    + intros (pre & post & H). destruct pre; [|discriminate].
      exists post. exact H.
  - rewrite includes_cons, orb_true_iff, prefix_append, IH. split.
    + intros [[post H] | (pre & post & H)].
      * exists EmptyString, post. exact H.
      * exists (String a pre), post. simpl. rewrite H. reflexivity.
    + intros (pre & post & H). destruct pre as [|b pre]; simpl in H.
      * left. exists post. exact H.
      * right. injection H as _ H. exists pre, post. exact H.
Qed.

Lemma includes_false_iff (s needle : string) :
  Js.includes s needle = false <-> ~ isSubstring needle s.
Proof.
  rewrite <- includes_isSubstring. destruct (Js.includes s needle); split;
    congruence.
Qed.

Lemma isEmptyString_false (s : string) :
  s <> EmptyString -> Js.isEmptyString s = false.
Proof. destruct s; [congruence | reflexivity]. Qed.

(** On the ASCII case mapping, containment after lower-casing is the
    presence of a substring that equals the term up to case. *)
Lemma toLowerCaseAscii_append (a b : string) :
  Js.toLowerCaseAscii (String.append a b) =
  String.append (Js.toLowerCaseAscii a) (Js.toLowerCaseAscii b).
Proof.
  induction a as [|c a IH]; simpl; [reflexivity|]. rewrite IH. reflexivity.
Qed.

Lemma toLowerCaseAscii_split (s x y : string) :
  Js.toLowerCaseAscii s = String.append x y ->
  exists a b, s = String.append a b /\
              Js.toLowerCaseAscii a = x /\ Js.toLowerCaseAscii b = y.
Proof.
  revert s. induction x as [|c x IH]; intros s H.
  - exists EmptyString, s. repeat split. exact H.
  - destruct s as [|c' s]; [discriminate|]. simpl in H.
    injection H as Hc Hs. destruct (IH s Hs) as (a & b & -> & Ha & Hb).
    exists (String c' a), b. simpl. rewrite Ha, Hc. repeat split. exact Hb.
Qed.

Lemma containsIgnoringCase_ascii (field term : string) :
  containsIgnoringCase Js.toLowerCaseAscii field term <->
  exists pre w post,
    field = String.append pre (String.append w post) /\
    Js.toLowerCaseAscii w = Js.toLowerCaseAscii term.
Proof.
  unfold containsIgnoringCase, isSubstring. split.
  - intros (pre & post & H).
    apply toLowerCaseAscii_split in H as (a & b & -> & _ & Hb).
    apply toLowerCaseAscii_split in Hb as (w & c & -> & Hw & _).
    exists a, w, c. split; [reflexivity | exact Hw].
  - intros (pre & w & post & -> & Hw).
    exists (Js.toLowerCaseAscii pre), (Js.toLowerCaseAscii post).
    rewrite !toLowerCaseAscii_append, Hw. reflexivity.
Qed.

(** ** Lists *)

Lemma filter_none {A} (f : A -> bool) (l : list A) :
  (forall x, In x l -> f x = false) -> List.filter f l = [].
Proof.
  induction l as [|x l IH]; intros H; simpl; [reflexivity|].
  rewrite (H x (or_introl eq_refl)). apply IH.
  intros y Hy. apply H. right. exact Hy.
Qed.

Lemma find_unresolved {A} (key : A -> string) (k : string) (l : list A) :
  (forall x, In x l -> key x <> k) ->
  find (fun x => String.eqb (key x) k) l = None.
Proof.
  induction l as [|x l IH]; intros H; simpl; [reflexivity|].
  destruct (String.eqb_spec (key x) k) as [E|_].
  - exfalso. exact (H x (or_introl eq_refl) E).
  - apply IH. intros y Hy. apply H. right. exact Hy.
Qed.

Lemma find_resolved {A} (key : A -> string) (k : string) (l : list A) (x : A) :
  find (fun y => String.eqb (key y) k) l = Some x -> In x l /\ key x = k.
Proof.
  intros H. apply find_some in H. destruct H as [Hin E].
  split; [exact Hin | apply String.eqb_eq; exact E].
Qed.

(** ** Payment *)

(** C1. For every pair of numbers [derivePayment] keeps both inputs,
    sets [remainingAmount] to [stitchingPrice - advancePaid] as it is,
    with no clamping, and sets the status to PAID exactly when that
    amount is [<= 0] and to UNPAID otherwise; [derivePayment(1500, 2000)]
    has [remainingAmount = -500] and status PAID. *)
Theorem derivePayment_remaining_and_status :
  (forall price advance : float,
      let p := OrderForm.derivePayment price advance in
      stitchingPrice p = price /\
      advancePaid p = advance /\
      remainingAmount p = (price - advance)%float /\
      (pstatus p = PAID <-> (remainingAmount p <=? 0)%float = true) /\
      (pstatus p = UNPAID <-> (remainingAmount p <=? 0)%float = false)) /\
  OrderForm.derivePayment 1500 2000 =
  {| stitchingPrice := 1500; advancePaid := 2000;
     remainingAmount := (-500)%float; pstatus := PAID |}.
Proof.
  split; [|reflexivity].
  intros price advance p. subst p. unfold OrderForm.derivePayment. simpl.
  repeat split; try reflexivity;
    destruct (OrderForm.due _ <=? 0)%float; congruence.
Qed.

Example derivePayment_1500_500 :
  OrderForm.derivePayment 1500 500 =
  {| stitchingPrice := 1500; advancePaid := 500;
     remainingAmount := 1000; pstatus := UNPAID |}.
Proof. reflexivity. Qed.

Example derivePayment_1500_1500 :
  OrderForm.derivePayment 1500 1500 =
  {| stitchingPrice := 1500; advancePaid := 1500;
     remainingAmount := 0; pstatus := PAID |}.
Proof. reflexivity. Qed.

(** ** Search *)

Section FilterProperties.

Variable toLowerCase : string -> string.

Lemma customerMatches_iff (term : string) (c : Customer) :
  TailorDashboard.customerMatches toLowerCase term (toLowerCase term) c = true
  <->
  containsIgnoringCase toLowerCase (name c) term \/
  containsRaw (mobileNumber c) term \/
  containsIgnoringCase toLowerCase (fatherName c) term.
Proof.
  unfold TailorDashboard.customerMatches, containsIgnoringCase, containsRaw.
  rewrite !orb_true_iff, !includes_isSubstring. tauto.
Qed.

Lemma filteredCustomers_nonempty (st : AppState) (term : string) :
  term <> EmptyString ->
  TailorDashboard.filteredCustomers toLowerCase st term =
  List.filter
    (TailorDashboard.customerMatches toLowerCase term (toLowerCase term))
    (customers st).
Proof.
  intros H. unfold TailorDashboard.filteredCustomers.
  rewrite (isEmptyString_false _ H). reflexivity.
Qed.

Lemma filteredOrders_nonempty (st : AppState) (term : string) :
  term <> EmptyString ->
  TailorDashboard.filteredOrders toLowerCase st term =
  List.filter
    (fun o => Js.toBoolean
                (TailorDashboard.orderMatches toLowerCase st (toLowerCase term) o))
    (orders st).
Proof.
  intros H. unfold TailorDashboard.filteredOrders.
  rewrite (isEmptyString_false _ H). reflexivity.
Qed.

(** The callback on an order whose customer is missing: the test on the
    order id alone. *)
Lemma orderMatches_unresolved (st : AppState) (low : string) (o : Order) :
  (forall c, In c (customers st) -> cid c <> customerId (data o)) ->
  Js.toBoolean (TailorDashboard.orderMatches toLowerCase st low o) =
  Js.includes (toLowerCase (id o)) low.
Proof.
  intros H. unfold TailorDashboard.orderMatches.
  rewrite (find_unresolved cid _ _ H). simpl.
  destruct (Js.includes (toLowerCase (id o)) low); reflexivity.
Qed.

(** An empty term gives the whole list back, in its order. *)
Lemma filteredCustomers_empty_term (st : AppState) :
  TailorDashboard.filteredCustomers toLowerCase st EmptyString = customers st.
Proof. reflexivity. Qed.

Lemma filteredOrders_empty_term (st : AppState) :
  TailorDashboard.filteredOrders toLowerCase st EmptyString = orders st.
Proof. reflexivity. Qed.

Lemma filter_twice {A} (f : A -> bool) (l : list A) :
  List.filter f (List.filter f l) = List.filter f l.
Proof.
  induction l as [|x l IH]; simpl; [reflexivity|].
  destruct (f x) eqn:E; simpl; rewrite ?E, IH; reflexivity.
Qed.

(** Filtering the filtered list again changes nothing. *)
Lemma filteredCustomers_idempotent (st : AppState) (term : string) :
  let once := TailorDashboard.filteredCustomers toLowerCase st term in
  TailorDashboard.filteredCustomers toLowerCase
    {| customers := once; orders := orders st; currentUser := currentUser st |}
    term = once.
Proof.
  unfold TailorDashboard.filteredCustomers.
  destruct (Js.isEmptyString term); simpl; [reflexivity | apply filter_twice].
Qed.

End FilterProperties.

(** C2. For a non-empty term, [filteredCustomers] keeps a customer of the
    list exactly when the name contains the term ignoring case, or the
    mobile number contains the term as typed, or the father's name
    contains the term ignoring case; customers that agree on these three
    fields are treated alike whatever their other fields; and when no
    customer matches the result is the empty list. *)
Theorem filteredCustomers_keeps_iff :
  forall (toLowerCase : string -> string) (st : AppState) (term : string),
    term <> EmptyString ->
    (forall c,
        In c (TailorDashboard.filteredCustomers toLowerCase st term) <->
        In c (customers st) /\
        (containsIgnoringCase toLowerCase (name c) term \/
         containsRaw (mobileNumber c) term \/
         containsIgnoringCase toLowerCase (fatherName c) term)) /\
    (forall c c',
        name c = name c' -> mobileNumber c = mobileNumber c' ->
        fatherName c = fatherName c' ->
        TailorDashboard.customerMatches toLowerCase term (toLowerCase term) c =
        TailorDashboard.customerMatches toLowerCase term (toLowerCase term) c') /\
    ((forall c, In c (customers st) ->
                ~ (containsIgnoringCase toLowerCase (name c) term \/
                   containsRaw (mobileNumber c) term \/
                   containsIgnoringCase toLowerCase (fatherName c) term)) ->
     TailorDashboard.filteredCustomers toLowerCase st term = []).
Proof.
  intros lower st term Hterm.
  rewrite (filteredCustomers_nonempty lower st term Hterm).
  split; [|split].
  - intros c. rewrite List.filter_In, customerMatches_iff. reflexivity.
  - intros c c' Hn Hm Hf. unfold TailorDashboard.customerMatches.
    rewrite Hn, Hm, Hf. reflexivity.
  - intros Hnone. apply filter_none. intros c Hc.
    apply not_true_is_false. rewrite customerMatches_iff. exact (Hnone c Hc).
Qed.

(** C3. For a non-empty term [filteredOrders] returns a list for every
    order list and customer list; an order whose [customerId] is the id
    of no customer is kept exactly when its own id contains the term
    ignoring case, and the orders before and after it are filtered as
    they would be without it. *)
Theorem filteredOrders_unresolved_customer :
  forall (toLowerCase : string -> string) (st : AppState) (term : string)
         (o : Order),
    term <> EmptyString ->
    (forall c, In c (customers st) -> cid c <> customerId (data o)) ->
    (In o (TailorDashboard.filteredOrders toLowerCase st term) <->
     In o (orders st) /\ containsIgnoringCase toLowerCase (id o) term) /\
    (forall before after,
        orders st = before ++ o :: after ->
        TailorDashboard.filteredOrders toLowerCase st term =
        TailorDashboard.filteredOrders toLowerCase (App.setOrders before st) term
        ++ (if Js.includes (toLowerCase (id o)) (toLowerCase term)
            then [o] else [])
        ++ TailorDashboard.filteredOrders toLowerCase (App.setOrders after st) term).
Proof.
  intros lower st term o Hterm Hmissing.
  split.
  - rewrite (filteredOrders_nonempty lower st term Hterm).
    rewrite List.filter_In, (orderMatches_unresolved lower st _ o Hmissing).
    unfold containsIgnoringCase. rewrite includes_isSubstring. reflexivity.
  - intros before after Hsplit.
    rewrite (filteredOrders_nonempty lower st term Hterm).
    rewrite (filteredOrders_nonempty lower (App.setOrders before st) term Hterm).
    rewrite (filteredOrders_nonempty lower (App.setOrders after st) term Hterm).
    rewrite Hsplit, List.filter_app. simpl.
    rewrite (orderMatches_unresolved lower st _ o Hmissing).
    destruct (Js.includes (lower (id o)) (lower term)); reflexivity.
Qed.

(** ** The snapshot of the "orders" collection *)

Lemma ordersOfSnapshot_In (col : gmap string OrderDoc) (o : Order) :
  In o (App.ordersOfSnapshot col) <-> col !! id o = Some (data o).
Proof.
  unfold App.ordersOfSnapshot. rewrite in_map_iff. split.
  - intros [[k d] [<- Hin]]. simpl.
    apply elem_of_map_to_list, list_elem_of_In. exact Hin.
  - intros H. exists (id o, data o). split; [destruct o; reflexivity|].
    apply list_elem_of_In, elem_of_map_to_list. exact H.
Qed.

Lemma find_by_id_nodup (l : list (string * OrderDoc)) (i : string)
    (d : OrderDoc) :
  NoDup (l.*1) -> (i, d) ∈ l ->
  find (fun o => String.eqb (id o) i)
       (List.map (fun p => {| id := fst p; data := snd p |}) l)
  = Some {| id := i; data := d |}.
Proof.
  induction l as [|[k v] l IH]; intros Hnd Hin.
  - inversion Hin.
  - simpl in Hnd. apply NoDup_cons in Hnd as [Hk Hnd]. simpl.
    apply elem_of_cons in Hin as [Heq|Hin].
    + injection Heq as -> ->. rewrite String.eqb_refl. reflexivity.
    + destruct (String.eqb_spec k i) as [->|_].
      * exfalso. apply Hk. apply list_elem_of_fmap. exists (i, d).
        split; [reflexivity | exact Hin].
      * apply IH; assumption.
Qed.

Lemma ordersOfSnapshot_find (col : gmap string OrderDoc) (i : string)
    (d : OrderDoc) :
  col !! i = Some d ->
  find (fun o => String.eqb (id o) i) (App.ordersOfSnapshot col)
  = Some {| id := i; data := d |}.
Proof.
  intros H. apply find_by_id_nodup.
  - apply NoDup_fst_map_to_list.
  - apply elem_of_map_to_list. exact H.
Qed.

Lemma ordersOfSnapshot_find_none (col : gmap string OrderDoc) (i : string) :
  col !! i = None ->
  find (fun o => String.eqb (id o) i) (App.ordersOfSnapshot col) = None.
Proof.
  intros H. apply (find_unresolved id). intros o Ho Hid.
  apply ordersOfSnapshot_In in Ho. congruence.
Qed.

(** ** The store handlers *)

Lemma updateDoc_existing (col : gmap string OrderDoc) (i : string)
    (d : OrderDoc) (patch : OrderDoc -> OrderDoc) :
  col !! i = Some d ->
  Firestore.updateDoc col i patch = Some (<[i := patch d]> col).
Proof. intros H. unfold Firestore.updateDoc. rewrite H. reflexivity. Qed.

Lemma handleSendMessage_found (os : list Order) (col : gmap string OrderDoc)
    (r t i u e : string) (order : Order) (d : OrderDoc) :
  find (fun o => String.eqb (id o) i) os = Some order ->
  col !! i = Some d ->
  App.handleSendMessage os col r t i u e =
  Some (<[i := Firestore.patchMessages
                 (App.newMessage r t u e :: messages (data order)) d]> col).
Proof.
  intros Hfind Hcol. unfold App.handleSendMessage. rewrite Hfind.
  apply updateDoc_existing. exact Hcol.
Qed.

(** C5. The creation path stores, under the id the store assigns, a
    document with status PENDING, no message, no photo, the creation
    time as [createdAt], and the customer id, measurements and payment
    it was given, unchanged; the order then appears in the snapshot with
    these fields, and no other document is touched. *)
Theorem handleAddOrder_defaults :
  forall (col : gmap string OrderDoc) (newId now : string)
         (orderData : App.OrderData),
    let col' := App.handleAddOrder col newId now orderData in
    exists d : OrderDoc,
      col' !! newId = Some d /\
      In {| id := newId; data := d |} (App.ordersOfSnapshot col') /\
      status d = PENDING /\
      messages d = [] /\
      photos d = Some [] /\
      createdAt d = now /\
      customerId d = App.od_customerId orderData /\
      measurements d = App.od_measurements orderData /\
      payment d = App.od_payment orderData /\
      (forall j, j <> newId -> col' !! j = col !! j).
Proof.
  intros col newId now orderData col'. subst col'.
  unfold App.handleAddOrder, Firestore.addDoc.
  exists (App.newOrderDoc now orderData).
  assert (Hl : <[newId := App.newOrderDoc now orderData]> col !! newId
               = Some (App.newOrderDoc now orderData))
    by apply lookup_insert_eq.
  split; [exact Hl|]. split; [apply ordersOfSnapshot_In; exact Hl|].
  repeat (split; [reflexivity|]).
  intros j Hj. apply lookup_insert_ne. congruence.
Qed.

(** C8. Whatever the current status of a stored order and whatever the
    target status, the status update succeeds; afterwards the order has
    the target status and every other field as before, and every other
    order is unchanged. *)
Theorem handleUpdateStatus_any_transition :
  forall (col : gmap string OrderDoc) (i : string) (d : OrderDoc)
         (S T : OrderStatus),
    col !! i = Some d ->
    status d = S ->
    exists (col' : gmap string OrderDoc) (d' : OrderDoc),
      App.handleUpdateStatus col i T = Some col' /\
      col' !! i = Some d' /\
      status d' = T /\
      customerId d' = customerId d /\
      measurements d' = measurements d /\
      payment d' = payment d /\
      messages d' = messages d /\
      photos d' = photos d /\
      createdAt d' = createdAt d /\
      (forall j, j <> i -> col' !! j = col !! j).
Proof.
  intros col i d S T Hcol _.
  exists (<[i := Firestore.patchStatus T d]> col), (Firestore.patchStatus T d).
  split; [apply updateDoc_existing; exact Hcol|].
  split; [apply lookup_insert_eq|].
  repeat (split; [reflexivity|]).
  intros j Hj. apply lookup_insert_ne. congruence.
Qed.

(** C10. When no order of the local list has the given id, sending a
    message completes without an update: the collection, and so every
    order and every message sequence, is as before. *)
Theorem handleSendMessage_unknown_order :
  forall (os : list Order) (col : gmap string OrderDoc)
         (random36 now i u e : string),
    (forall o, In o os -> id o <> i) ->
    App.handleSendMessage os col random36 now i u e = Some col.
Proof.
  intros os col r t i u e H. unfold App.handleSendMessage.
  rewrite (find_unresolved id i os H). reflexivity.
Qed.

(** C9. [loginAsCustomer] returns [true] exactly when some customer has
    the given mobile number; it then makes the current user a CUSTOMER
    with the id of the first such customer; otherwise it returns [false]
    and leaves the state as it was. *)
Theorem loginAsCustomer_iff_found :
  forall (st : AppState) (mobile : string),
    let r := App.loginAsCustomer st mobile in
    (fst r = true <->
     exists c, In c (customers st) /\ mobileNumber c = mobile) /\
    (fst r = true ->
     exists c, In c (customers st) /\ mobileNumber c = mobile /\
               find (fun c' => String.eqb (mobileNumber c') mobile)
                    (customers st) = Some c /\
               snd r =
               {| customers := customers st; orders := orders st;
                  currentUser := Some {| role := CUSTOMER;
                                         uid := Some (cid c) |} |}) /\
    (fst r = false -> snd r = st).
Proof.
  intros st mobile r. subst r. unfold App.loginAsCustomer.
  destruct (find _ (customers st)) as [c|] eqn:Hfind; simpl.
  - pose proof (find_resolved mobileNumber mobile _ c Hfind) as [Hin Hm].
    split; [split; [intros _; exists c; auto | reflexivity]|].
    split; [intros _; exists c; auto|].
    discriminate.
  - split.
    + split; [discriminate|]. intros [c [Hin Hm]].
      pose proof (find_none _ _ Hfind c Hin) as Hno. simpl in Hno.
      rewrite Hm, String.eqb_refl in Hno. discriminate.
    + split; [discriminate | reflexivity].
Qed.

(** ** Messages and photos *)

(** C6. Sending a message to a stored order writes one new message,
    with the two texts, an id cut from the random draw and the current
    time, in front of the messages of that order; with the local list
    refreshed from the store in between, sending M1 and then M2 leaves
    the stored sequence M2, M1 followed by the earlier messages, each of
    them as it was; nothing else of the order, and no other order,
    changes. *)
Theorem handleSendMessage_prepends :
  forall (col : gmap string OrderDoc) (i : string) (d : OrderDoc)
         (r1 t1 u1 e1 r2 t2 u2 e2 : string),
    col !! i = Some d ->
    let m1 := App.newMessage r1 t1 u1 e1 in
    let m2 := App.newMessage r2 t2 u2 e2 in
    (mid m1 = Js.substr r1 2 9 /\ urdu m1 = u1 /\ english m1 = e1 /\
     timestamp m1 = t1) /\
    (forall os order,
        find (fun o => String.eqb (id o) i) os = Some order ->
        exists (col1 : gmap string OrderDoc) (d1 : OrderDoc),
          App.handleSendMessage os col r1 t1 i u1 e1 = Some col1 /\
          col1 !! i = Some d1 /\
          messages d1 = m1 :: messages (data order) /\
          sameExceptMessages d d1 /\
          (forall j, j <> i -> col1 !! j = col !! j)) /\
    exists (col1 col2 : gmap string OrderDoc) (d1 d2 : OrderDoc),
      App.handleSendMessage (App.ordersOfSnapshot col) col r1 t1 i u1 e1
      = Some col1 /\
      col1 !! i = Some d1 /\
      messages d1 = m1 :: messages d /\
      sameExceptMessages d d1 /\
      (forall j, j <> i -> col1 !! j = col !! j) /\
      App.handleSendMessage (App.ordersOfSnapshot col1) col1 r2 t2 i u2 e2
      = Some col2 /\
      col2 !! i = Some d2 /\
      messages d2 = m2 :: m1 :: messages d /\
      sameExceptMessages d d2 /\
      (forall j, j <> i -> col2 !! j = col !! j).
Proof.
  intros col i d r1 t1 u1 e1 r2 t2 u2 e2 Hcol m1 m2.
  split; [repeat split|]. split.
  - intros os order Hfind.
    exists (<[i := Firestore.patchMessages (m1 :: messages (data order)) d]> col),
      (Firestore.patchMessages (m1 :: messages (data order)) d).
    split; [apply (handleSendMessage_found os col r1 t1 i u1 e1 order d
                     Hfind Hcol)|].
    split; [apply lookup_insert_eq|].
    split; [reflexivity|]. split; [repeat split|].
    intros j Hj. apply lookup_insert_ne. congruence.
  - set (d1 := Firestore.patchMessages (m1 :: messages d) d).
    set (d2 := Firestore.patchMessages (m2 :: m1 :: messages d) d).
    set (col1 := <[i := d1]> col).
    assert (H1 : col1 !! i = Some d1) by apply lookup_insert_eq.
    exists col1, (<[i := d2]> col1), d1, d2.
    split.
    { apply (handleSendMessage_found _ col r1 t1 i u1 e1
               {| id := i; data := d |} d);
        [apply ordersOfSnapshot_find; exact Hcol | exact Hcol]. }
    split; [exact H1|]. split; [reflexivity|]. split; [repeat split|].
    split; [intros j Hj; apply lookup_insert_ne; congruence|].
    split.
    { apply (handleSendMessage_found _ col1 r2 t2 i u2 e2
               {| id := i; data := d1 |} d1);
        [apply ordersOfSnapshot_find; exact H1 | exact H1]. }
    split; [apply lookup_insert_eq|].
    split; [reflexivity|]. split; [repeat split|].
    intros j Hj. rewrite lookup_insert_ne by congruence.
    apply lookup_insert_ne. congruence.
Qed.

Lemma handlePhotoUpdate_existing (col : gmap string OrderDoc) (i : string)
    (d : OrderDoc) (ps : list string) :
  col !! i = Some d ->
  App.handlePhotoUpdate col i ps = Some (<[i := Firestore.patchPhotos ps d]> col).
Proof. apply updateDoc_existing. Qed.

(** C7. Uploading a photo from either order view writes the photos of
    the order followed by the new one, an absent [photos] counting as
    empty, so that the first photo of such an order is stored alone;
    with the view refreshed from the store in between, uploading P1 and
    then P2 leaves the earlier photos followed by P1, P2; nothing else
    of the order, and no other order, changes. *)
Theorem photo_upload_appends :
  forall (col : gmap string OrderDoc) (order : Order) (P1 P2 : string),
    In order (App.ordersOfSnapshot col) ->
    let old := Js.orEmpty (photos (data order)) in
    OrderCard.uploadedPhotos order P1 = old ++ [P1] /\
    CustomerOrderView.uploadedPhotos order P1 = old ++ [P1] /\
    (photos (data order) = None ->
     OrderCard.uploadedPhotos order P1 = [P1] /\
     CustomerOrderView.uploadedPhotos order P1 = [P1]) /\
    exists (col1 col2 : gmap string OrderDoc) (order1 : Order),
      tailorUploadsPhoto col order P1 = Some col1 /\
      customerUploadsPhoto col order P1 = Some col1 /\
      col1 !! id order
      = Some (Firestore.patchPhotos (old ++ [P1]) (data order)) /\
      (forall j, j <> id order -> col1 !! j = col !! j) /\
      find (fun o => String.eqb (id o) (id order)) (App.ordersOfSnapshot col1)
      = Some order1 /\
      photos (data order1) = Some (old ++ [P1]) /\
      tailorUploadsPhoto col1 order1 P2 = Some col2 /\
      customerUploadsPhoto col1 order1 P2 = Some col2 /\
      col2 !! id order
      = Some (Firestore.patchPhotos (old ++ [P1; P2]) (data order)) /\
      (forall j, j <> id order -> col2 !! j = col !! j).
Proof.
  intros col [i d] P1 P2 Hin old. apply ordersOfSnapshot_In in Hin.
  simpl in Hin, old |- *.
  split; [reflexivity|]. split; [reflexivity|].
  split.
  { intros Hnone.
    unfold OrderCard.uploadedPhotos, CustomerOrderView.uploadedPhotos. simpl.
    rewrite Hnone. split; reflexivity. }
  set (d1 := Firestore.patchPhotos (old ++ [P1]) d).
  set (col1 := <[i := d1]> col).
  assert (H1 : col1 !! i = Some d1) by apply lookup_insert_eq.
  exists col1, (<[i := Firestore.patchPhotos (old ++ [P1; P2]) d]> col1),
    {| id := i; data := d1 |}.
  assert (Hup : forall ps, App.handlePhotoUpdate col1 i ps
                = Some (<[i := Firestore.patchPhotos ps d]> col1)).
  { intros ps. apply (handlePhotoUpdate_existing col1 i d1 ps H1). }
  assert (Happ : (old ++ [P1]) ++ [P2] = old ++ [P1; P2])
    by (rewrite <- app_assoc; reflexivity).
  split; [apply (handlePhotoUpdate_existing col i d _ Hin)|].
  split; [apply (handlePhotoUpdate_existing col i d _ Hin)|].
  split; [exact H1|].
  split; [intros j Hj; apply lookup_insert_ne; congruence|].
  split; [apply ordersOfSnapshot_find; exact H1|].
  split; [reflexivity|].
  split; [unfold tailorUploadsPhoto, OrderCard.uploadedPhotos; simpl;
          rewrite Happ; apply Hup|].
  split; [unfold customerUploadsPhoto, CustomerOrderView.uploadedPhotos; simpl;
          rewrite Happ; apply Hup|].
  split; [apply lookup_insert_eq|].
  intros j Hj. rewrite lookup_insert_ne by congruence.
  apply lookup_insert_ne. congruence.
Qed.

(** ** The measurement grid *)

(** C4, as the code has it. For every order the grid of either view
    shows every field of the measurements but the four metadata fields
    [suitType], [deliveryDate], [measurementDate] and [specialNotes]:
    the ten body measurements and also [numPockets], [numSuits] and
    [clothLengthGiven]; the two views list the same metadata fields and
    build the same grid. *)
Theorem measurementGrid_fields :
  forall order : Order,
    renderedKeys (OrderCard.measurementGrid order) =
    OrderForm.measurementInputs ++
    ["numPockets"; "numSuits"; "clothLengthGiven"] /\
    (forall k, In k (List.map fst (entries (measurements (data order)))) ->
               (In k (renderedKeys (OrderCard.measurementGrid order)) <->
                ~ In k ["suitType"; "deliveryDate"; "measurementDate";
                        "specialNotes"])) /\
    CustomerOrderView.metadataKeys = OrderCard.metadataKeys /\
    CustomerOrderView.measurementGrid order = OrderCard.measurementGrid order.
Proof.
  intros order. split; [reflexivity|]. split; [|split; reflexivity].
  intros k Hk.
  assert (Hgrid : renderedKeys (OrderCard.measurementGrid order) =
                  OrderForm.measurementInputs ++
                  ["numPockets"; "numSuits"; "clothLengthGiven"])
    by reflexivity.
  rewrite Hgrid. simpl in Hk.
  rewrite <- !list_elem_of_In.
  repeat (destruct Hk as [<-|Hk]; [compute_done|]).
  destruct Hk.
Qed.

(** ** The properties on the sample data *)

Example sample_lookup : Sample.col !! "ORD1abc" = Some Sample.doc.
Proof. reflexivity. Qed.

Example sample_filter_ali :
  TailorDashboard.filteredCustomers Js.toLowerCaseAscii Sample.state "ali"
  = [Sample.ali].
Proof. reflexivity. Qed.

Example sample_filter_0300 :
  TailorDashboard.filteredCustomers Js.toLowerCaseAscii Sample.state "0300"
  = [Sample.ali].
Proof. reflexivity. Qed.

Example sample_filter_zzz :
  TailorDashboard.filteredCustomers Js.toLowerCaseAscii Sample.state "zzz" = [].
Proof. reflexivity. Qed.

Example sample_filter_empty_term :
  TailorDashboard.filteredCustomers Js.toLowerCaseAscii Sample.state ""
  = customers Sample.state.
Proof. reflexivity. Qed.

Example sample_filter_orders_by_name :
  TailorDashboard.filteredOrders Js.toLowerCaseAscii Sample.state "KHAN"
  = [Sample.order1].
Proof. reflexivity. Qed.

Example sample_filter_orders_orphan :
  TailorDashboard.filteredOrders Js.toLowerCaseAscii Sample.state "ord2"
  = [Sample.order2].
Proof. reflexivity. Qed.

Example sample_login :
  App.loginAsCustomer Sample.state "03001234567" =
  (true, App.setCurrentUser (Some {| role := CUSTOMER; uid := Some "c1" |})
           Sample.state) /\
  App.loginAsCustomer Sample.state "0300" = (false, Sample.state).
Proof. split; reflexivity. Qed.

Example sample_message_id :
  mid (App.newMessage "0.4fzyo82mvyr" Sample.created "u" "e") = "4fzyo82mv".
Proof. reflexivity. Qed.

Example sample_label :
  Js.spaceBeforeCapitals "shalwarLength" = "shalwar Length".
Proof. reflexivity. Qed.

Lemma filteredCustomers_keeps_iff_witness :
  "ali" <> EmptyString /\
  In Sample.ali
     (TailorDashboard.filteredCustomers Js.toLowerCaseAscii Sample.state "ali").
Proof.
  assert (H : "ali" <> EmptyString) by discriminate.
  split; [exact H|].
  apply (proj1 (filteredCustomers_keeps_iff Js.toLowerCaseAscii Sample.state
                  "ali" H) Sample.ali).
  split; [left; reflexivity|].
  left. apply includes_isSubstring. reflexivity.
Defined.

Lemma filteredOrders_unresolved_customer_witness :
  "ord2" <> EmptyString /\
  (forall c, In c (customers Sample.state) ->
             cid c <> customerId (data Sample.order2)) /\
  In Sample.order2
     (TailorDashboard.filteredOrders Js.toLowerCaseAscii Sample.state "ord2").
Proof.
  assert (H : "ord2" <> EmptyString) by discriminate.
  assert (Hmissing : forall c, In c (customers Sample.state) ->
                               cid c <> customerId (data Sample.order2)).
  { intros c [<-|[]]. discriminate. }
  split; [exact H|]. split; [exact Hmissing|].
  apply (proj1 (filteredOrders_unresolved_customer Js.toLowerCaseAscii
                  Sample.state "ord2" Sample.order2 H Hmissing)).
  split; [right; left; reflexivity|].
  apply includes_isSubstring. reflexivity.
Defined.

Lemma handleUpdateStatus_any_transition_witness :
  Sample.col !! "ORD1abc" = Some Sample.doc /\
  status Sample.doc = PENDING /\
  exists (col' : gmap string OrderDoc) (d' : OrderDoc),
    App.handleUpdateStatus Sample.col "ORD1abc" DELIVERED = Some col' /\
    col' !! "ORD1abc" = Some d' /\
    status d' = DELIVERED.
Proof.
  split; [reflexivity|]. split; [reflexivity|].
  destruct (handleUpdateStatus_any_transition Sample.col "ORD1abc" Sample.doc
              PENDING DELIVERED eq_refl eq_refl)
    as (col' & d' & Hrun & Hlook & Hst & _).
  exists col', d'. split; [exact Hrun|]. split; [exact Hlook | exact Hst].
Defined.

Lemma handleSendMessage_unknown_order_witness :
  (forall o, In o (orders Sample.state) -> id o <> "missing") /\
  App.handleSendMessage (orders Sample.state) Sample.col
    "0.4fzyo82mvyr" Sample.created "missing" "u" "e" = Some Sample.col.
Proof.
  assert (H : forall o, In o (orders Sample.state) -> id o <> "missing").
  { intros o [<-|[<-|[]]]; discriminate. }
  split; [exact H|].
  apply (handleSendMessage_unknown_order (orders Sample.state) Sample.col
           "0.4fzyo82mvyr" Sample.created "missing" "u" "e" H).
Defined.

Lemma handleSendMessage_prepends_witness :
  Sample.col !! "ORD1abc" = Some Sample.doc /\
  exists (col1 col2 : gmap string OrderDoc) (d2 : OrderDoc),
    App.handleSendMessage (App.ordersOfSnapshot Sample.col) Sample.col
      "0.4fzyo82mvyr" "t1" "ORD1abc" "u1" "e1" = Some col1 /\
    App.handleSendMessage (App.ordersOfSnapshot col1) col1
      "0.9k2j5h1x7qb" "t2" "ORD1abc" "u2" "e2" = Some col2 /\
    col2 !! "ORD1abc" = Some d2 /\
    messages d2 =
    [ {| mid := "9k2j5h1x7"; urdu := "u2"; english := "e2"; timestamp := "t2" |};
      {| mid := "4fzyo82mv"; urdu := "u1"; english := "e1"; timestamp := "t1" |} ].
Proof.
  split; [reflexivity|].
  destruct (handleSendMessage_prepends Sample.col "ORD1abc" Sample.doc
              "0.4fzyo82mvyr" "t1" "u1" "e1" "0.9k2j5h1x7qb" "t2" "u2" "e2"
              eq_refl)
    as (_ & _ & col1 & col2 & d1 & d2 & Hrun1 & _ & _ & _ & _ & Hrun2 & Hlook
        & Hmsgs & _).
  exists col1, col2, d2. split; [exact Hrun1|]. split; [exact Hrun2|].
  split; [exact Hlook | exact Hmsgs].
Defined.

Lemma photo_upload_appends_witness :
  In Sample.order1 (App.ordersOfSnapshot Sample.col) /\
  exists (col1 col2 : gmap string OrderDoc) (order1 : Order),
    tailorUploadsPhoto Sample.col Sample.order1 "P1" = Some col1 /\
    find (fun o => String.eqb (id o) "ORD1abc") (App.ordersOfSnapshot col1)
    = Some order1 /\
    customerUploadsPhoto col1 order1 "P2" = Some col2 /\
    col2 !! "ORD1abc" = Some (Firestore.patchPhotos ["P1"; "P2"] Sample.doc).
Proof.
  assert (H : In Sample.order1 (App.ordersOfSnapshot Sample.col)).
  { apply (proj2 (ordersOfSnapshot_In Sample.col Sample.order1)). reflexivity. }
  split; [exact H|].
  destruct (photo_upload_appends Sample.col Sample.order1 "P1" "P2" H)
    as (_ & _ & _ & col1 & col2 & order1 & Hrun1 & _ & _ & _ & Hfind & _ & _
        & Hrun2 & Hlook & _).
  exists col1, col2, order1.
  split; [exact Hrun1|]. split; [exact Hfind|].
  split; [exact Hrun2 | exact Hlook].
Defined.

(** C4, as the specification states it, fails: the grid of the sample
    order also shows [numPockets], [numSuits] and [clothLengthGiven],
    which are not among the ten body measurements. *)
Lemma measurementGrid_shows_more_than_ten :
  (In "numPockets" (renderedKeys (OrderCard.measurementGrid Sample.order1)) /\
   In "numSuits" (renderedKeys (OrderCard.measurementGrid Sample.order1)) /\
   In "clothLengthGiven"
      (renderedKeys (CustomerOrderView.measurementGrid Sample.order1))) /\
  ~ In "numPockets" OrderForm.measurementInputs /\
  ~ In "numSuits" OrderForm.measurementInputs /\
  ~ In "clothLengthGiven" OrderForm.measurementInputs /\
  length (renderedKeys (OrderCard.measurementGrid Sample.order1)) = 13.
Proof.
  rewrite <- !list_elem_of_In. repeat split; compute_done.
Qed.

Example sample_grid_cells :
  omap (fun c => c) (OrderCard.measurementGrid Sample.order1) !! 10%nat =
  Some {| cell_key := "numPockets"; cell_label := "num Pockets";
          cell_value := VNum 2 |} /\
  omap (fun c => c) (OrderCard.measurementGrid Sample.order1) !! 12%nat =
  Some {| cell_key := "clothLengthGiven"; cell_label := "cloth Length Given";
          cell_value := VStr "-" |}.
Proof. split; reflexivity. Qed.

(** * Further properties of the code *)

(** ** More on lists *)

Lemma filter_sublist {A} (f : A -> bool) (l : list A) :
  sublist (List.filter f l) l.
Proof.
  induction l as [|x l IH]; simpl; [constructor|].
  destruct (f x); constructor; exact IH.
Qed.

Lemma filter_idem {A} (f : A -> bool) (l : list A) :
  List.filter f (List.filter f l) = List.filter f l.
Proof.
  induction l as [|x l IH]; simpl; [reflexivity|].
  destruct (f x) eqn:E; simpl; rewrite ?E, IH; reflexivity.
Qed.

Lemma filter_weaken {A} (f g : A -> bool) (l : list A) (x : A) :
  (forall y, f y = true -> g y = true) ->
  In x (List.filter f l) -> In x (List.filter g l).
Proof.
  intros H Hx. apply List.filter_In in Hx as [Hin Hf].
  apply List.filter_In. split; [exact Hin | apply H; exact Hf].
Qed.

(** With distinct keys, [find] by key returns the element itself. *)
Lemma find_unique {A} (key : A -> string) (l : list A) (x : A) :
  NoDup (List.map key l) -> In x l ->
  find (fun y => String.eqb (key y) (key x)) l = Some x.
Proof.
  induction l as [|y l IH]; intros Hnd Hin; [destruct Hin|].
  simpl in Hnd. apply NoDup_cons in Hnd as [Hy Hnd]. simpl.
  destruct Hin as [->|Hin].
  - rewrite String.eqb_refl. reflexivity.
  - destruct (String.eqb_spec (key y) (key x)) as [E|_].
    + exfalso. apply Hy. rewrite E. apply list_elem_of_In.
      apply in_map. exact Hin.
    + apply IH; assumption.
Qed.

Lemma find_is_Some {A} (f : A -> bool) (l : list A) (x : A) :
  In x l -> f x = true -> exists y, find f l = Some y.
Proof.
  intros Hin Hf. destruct (find f l) as [y|] eqn:E; [exists y; reflexivity|].
  rewrite (find_none f l E x Hin) in Hf. discriminate.
Qed.

(** [find] stops at the first hit: what it returns from
    [before ++ x :: after], when [x] is a hit, lies in [before ++ [x]]. *)
Lemma find_stops_at_first {A} (f : A -> bool) (before after : list A) (x y : A) :
  f x = true -> find f (before ++ x :: after) = Some y ->
  In y (before ++ [x]).
Proof.
  intros Hx. induction before as [|z before IH]; simpl.
  - rewrite Hx. intros [= <-]. left. reflexivity.
  - destruct (f z); [intros [= <-]; left; reflexivity|].
    intros H. right. apply IH. exact H.
Qed.

Lemma append_cons (x : ascii) (a b : string) :
  String.append (String x a) b = String x (String.append a b).
Proof. reflexivity. Qed.

Lemma append_assoc (a b c : string) :
  String.append (String.append a b) c = String.append a (String.append b c).
Proof.
  induction a as [|x a IH]; [reflexivity|].
  rewrite !append_cons, IH. reflexivity.
Qed.

Lemma isSubstring_trans (a b c : string) :
  isSubstring a b -> isSubstring b c -> isSubstring a c.
Proof.
  intros (p1 & q1 & ->) (p2 & q2 & ->).
  exists (String.append p2 p1), (String.append q1 q2).
  rewrite !append_assoc. reflexivity.
Qed.

Lemma isSubstring_of_empty (a : string) :
  isSubstring a EmptyString -> a = EmptyString.
Proof.
  intros (p & q & H). destruct p; [|discriminate]. destruct a; [reflexivity|].
  discriminate.
Qed.

Lemma isSubstring_lower_ascii (a b : string) :
  isSubstring a b ->
  isSubstring (Js.toLowerCaseAscii a) (Js.toLowerCaseAscii b).
Proof.
  intros (p & q & ->).
  exists (Js.toLowerCaseAscii p), (Js.toLowerCaseAscii q).
  rewrite !toLowerCaseAscii_append. reflexivity.
Qed.

(** ** More on the search *)

Section MoreFilterProperties.

Variable toLowerCase : string -> string.

(** The callback of the order filter is truthy exactly when the id
    matches or a customer is found and its name matches. *)
Lemma orderMatches_true_iff (st : AppState) (low : string) (o : Order) :
  Js.toBoolean (TailorDashboard.orderMatches toLowerCase st low o) = true <->
  Js.includes (toLowerCase (id o)) low = true \/
  exists c,
    find (fun c => String.eqb (cid c) (customerId (data o))) (customers st)
    = Some c /\
    Js.includes (toLowerCase (name c)) low = true.
Proof.
  unfold TailorDashboard.orderMatches.
  destruct (Js.includes (toLowerCase (id o)) low); simpl.
  - split; [left; reflexivity | reflexivity].
  - destruct (find _ (customers st)) as [c|]; simpl.
    + split.
      * intros H. right. exists c. split; [reflexivity | exact H].
      * intros [H|(c' & [= <-] & H)]; [discriminate | exact H].
    + split; [discriminate|]. intros [H|(c' & H & _)]; discriminate.
Qed.

End MoreFilterProperties.

(** X1. Each filter returns a sublist of the list it is given: the kept
    entries are entries of the input, in the input order, none made up
    and none repeated beyond the input. *)
Theorem filtered_lists_are_sublists :
  forall (toLowerCase : string -> string) (st : AppState) (term : string),
    sublist (TailorDashboard.filteredCustomers toLowerCase st term)
            (customers st) /\
    sublist (TailorDashboard.filteredOrders toLowerCase st term) (orders st).
Proof.
  intros lower st term.
  unfold TailorDashboard.filteredCustomers, TailorDashboard.filteredOrders.
  destruct (Js.isEmptyString term); split;
    first [ reflexivity | apply filter_sublist ].
Qed.

(** X2. Searching the result of a search again with the same term
    changes nothing, for customers and for orders. *)
Theorem filters_are_idempotent :
  forall (toLowerCase : string -> string) (st : AppState) (term : string),
    TailorDashboard.filteredCustomers toLowerCase
      (Registration.setCustomers
         (TailorDashboard.filteredCustomers toLowerCase st term) st) term
    = TailorDashboard.filteredCustomers toLowerCase st term /\
    TailorDashboard.filteredOrders toLowerCase
      (App.setOrders (TailorDashboard.filteredOrders toLowerCase st term) st)
      term
    = TailorDashboard.filteredOrders toLowerCase st term.
Proof.
  intros lower st term.
  unfold TailorDashboard.filteredCustomers, TailorDashboard.filteredOrders.
  destruct (Js.isEmptyString term); simpl; split;
    first [ reflexivity | apply filter_idem ].
Qed.

(** X3. A longer term never finds more: if the term [short] occurs
    inside the term [long], and does so still after both are
    lower-cased (as it always does when lower-casing works character by
    character, on ASCII text for one), every customer and every order
    found for [long] is found for [short]. *)
Theorem longer_term_narrows_search :
  forall (toLowerCase : string -> string) (st : AppState)
         (short long : string),
    isSubstring short long ->
    isSubstring (toLowerCase short) (toLowerCase long) ->
    (forall c,
        In c (TailorDashboard.filteredCustomers toLowerCase st long) ->
        In c (TailorDashboard.filteredCustomers toLowerCase st short)) /\
    (forall o,
        In o (TailorDashboard.filteredOrders toLowerCase st long) ->
        In o (TailorDashboard.filteredOrders toLowerCase st short)).
Proof.
  intros lower st short long Hsub Hlow.
  unfold TailorDashboard.filteredCustomers, TailorDashboard.filteredOrders.
  destruct long as [|a long].
  { apply isSubstring_of_empty in Hsub. subst short. simpl. tauto. }
  destruct short as [|b short]; simpl Js.isEmptyString; cbv iota.
  { split; intros x Hx; apply List.filter_In in Hx as [Hin _]; exact Hin. }
  split.
  - intros c. apply filter_weaken. intros y.
    unfold TailorDashboard.customerMatches.
    rewrite !orb_true_iff, !includes_isSubstring.
    intros [[H|H]|H].
    + left; left. exact (isSubstring_trans _ _ _ Hlow H).
    + left; right. exact (isSubstring_trans _ _ _ Hsub H).
    + right. exact (isSubstring_trans _ _ _ Hlow H).
  - intros o. apply filter_weaken. intros y.
    rewrite !orderMatches_true_iff, !includes_isSubstring.
    intros [H|(c & Hfind & H)].
    + left. exact (isSubstring_trans _ _ _ Hlow H).
    + right. exists c. split; [exact Hfind|].
      apply includes_isSubstring. apply includes_isSubstring in H.
      exact (isSubstring_trans _ _ _ Hlow H).
Qed.

(** X4. With distinct customer ids and a non-empty term, an order whose
    customer is in the list is kept exactly when the term occurs,
    ignoring case, in the order id or in that customer's name. *)
Theorem filteredOrders_resolved_customer :
  forall (toLowerCase : string -> string) (st : AppState) (term : string)
         (o : Order) (c : Customer),
    term <> EmptyString ->
    NoDup (List.map cid (customers st)) ->
    In c (customers st) ->
    cid c = customerId (data o) ->
    (In o (TailorDashboard.filteredOrders toLowerCase st term) <->
     In o (orders st) /\
     (containsIgnoringCase toLowerCase (id o) term \/
      containsIgnoringCase toLowerCase (name c) term)).
Proof.
  intros lower st term o c Hterm Hnd Hin Hid.
  rewrite (filteredOrders_nonempty lower st term Hterm).
  rewrite List.filter_In, orderMatches_true_iff, <- Hid.
  rewrite (find_unique cid (customers st) c Hnd Hin).
  unfold containsIgnoringCase. rewrite <- !includes_isSubstring.
  split.
  - intros [Ho [H|(c' & [= <-] & H)]]; split; auto.
  - intros [Ho [H|H]]; split; auto. right. exists c. split; auto.
Qed.

(** X5. The customer name on an order card is never empty: it is
    "Unknown" when no customer has the order's customer id, and with
    distinct ids it is the name of the order's customer whenever that
    name is not empty. *)
Theorem customerName_never_empty :
  forall (st : AppState) (o : Order),
    OrdersTab.customerName st o <> EmptyString /\
    ((forall c, In c (customers st) -> cid c <> customerId (data o)) ->
     OrdersTab.customerName st o = "Unknown") /\
    (forall c,
        NoDup (List.map cid (customers st)) ->
        In c (customers st) -> cid c = customerId (data o) ->
        name c <> EmptyString ->
        OrdersTab.customerName st o = name c).
Proof.
  intros st o. unfold OrdersTab.customerName. split; [|split].
  - destruct (find _ (customers st)) as [c|]; [|discriminate].
    destruct (name c) eqn:E; simpl; [discriminate | discriminate].
  - intros H. rewrite (find_unresolved cid _ _ H). reflexivity.
  - intros c Hnd Hin Hid Hname. rewrite <- Hid.
    rewrite (find_unique cid (customers st) c Hnd Hin).
    rewrite (isEmptyString_false _ Hname). reflexivity.
Qed.

(** ** Login, registration and the customer portal *)

Lemma loginAsCustomer_found (st : AppState) (mobile : string) (c : Customer) :
  find (fun c' => String.eqb (mobileNumber c') mobile) (customers st) = Some c ->
  App.loginAsCustomer st mobile =
  (true,
   App.setCurrentUser (Some {| role := CUSTOMER; uid := Some (cid c) |}) st).
Proof. intros H. unfold App.loginAsCustomer. rewrite H. reflexivity. Qed.

Lemma loginAsCustomer_true (st : AppState) (mobile : string) :
  fst (App.loginAsCustomer st mobile) = true ->
  exists c,
    find (fun c' => String.eqb (mobileNumber c') mobile) (customers st)
    = Some c.
Proof.
  unfold App.loginAsCustomer.
  destruct (find _ (customers st)) as [c|]; simpl; [|discriminate].
  intros _. exists c. reflexivity.
Qed.

(** X6. With distinct customer ids, a successful customer login leads
    (once loading is over) to the portal of a customer who has the
    typed mobile number, and the portal lists exactly the orders whose
    customer id is that customer's id, in the order of the order list;
    the authentication-error page is not shown. *)
Theorem login_opens_own_portal :
  forall (st : AppState) (mobile : string),
    NoDup (List.map cid (customers st)) ->
    fst (App.loginAsCustomer st mobile) = true ->
    exists (c : Customer) (shown : list Order),
      In c (customers st) /\
      mobileNumber c = mobile /\
      AppScreen.render false (snd (App.loginAsCustomer st mobile)) =
      AppScreen.CustomerDashboard (CustomerDashboard.Portal c shown) /\
      sublist shown (orders st) /\
      (forall o, In o shown <->
                 In o (orders st) /\ customerId (data o) = cid c).
Proof.
  intros st mobile Hnd Hlogin.
  destruct (loginAsCustomer_true st mobile Hlogin) as [c Hfind].
  destruct (find_resolved mobileNumber mobile _ c Hfind) as [Hin Hm].
  rewrite (loginAsCustomer_found st mobile c Hfind). simpl.
  exists c,
    (List.filter (fun o => String.eqb (customerId (data o)) (cid c)) (orders st)).
  split; [exact Hin|]. split; [exact Hm|]. split.
  - unfold AppScreen.render, CustomerDashboard.render. simpl.
    rewrite (find_unique cid (customers st) c Hnd Hin). reflexivity.
  - split; [apply filter_sublist|].
    intros o. rewrite List.filter_In, String.eqb_eq. reflexivity.
Qed.

(** X7. With distinct customer ids, a customer listed after another
    customer with the same mobile number can never be logged in: no
    typed text makes that customer the current user. *)
Theorem later_duplicate_mobile_cannot_login :
  forall (st : AppState) (before between after : list Customer)
         (first second : Customer) (typed : string),
    customers st = before ++ first :: between ++ second :: after ->
    NoDup (List.map cid (customers st)) ->
    mobileNumber first = mobileNumber second ->
    fst (App.loginAsCustomer st typed) = true ->
    currentUser (snd (App.loginAsCustomer st typed)) <>
    Some {| role := CUSTOMER; uid := Some (cid second) |}.
Proof.
  intros st before between after c1 c2 typed Hcs Hnd Hmob Hlogin Hcur.
  destruct (loginAsCustomer_true st typed Hlogin) as [c Hfind].
  rewrite (loginAsCustomer_found st typed c Hfind) in Hcur. simpl in Hcur.
  injection Hcur as Hid.
  destruct (find_resolved mobileNumber typed _ c Hfind) as [Hin Hm].
  assert (Hin2 : In c2 (customers st)).
  { rewrite Hcs. apply in_or_app. right. right. apply in_or_app.
    right. left. reflexivity. }
  assert (Hc : c = c2).
  { pose proof (find_unique cid (customers st) c Hnd Hin) as F1.
    pose proof (find_unique cid (customers st) c2 Hnd Hin2) as F2.
    rewrite Hid in F1. congruence. }
  subst c.
  rewrite Hcs in Hfind.
  assert (Hhit : String.eqb (mobileNumber c1) typed = true).
  { apply String.eqb_eq. congruence. }
  pose proof (find_stops_at_first _ before (between ++ c2 :: after) c1 c2
                Hhit Hfind) as Hearly.
  rewrite Hcs in Hnd.
  replace (before ++ c1 :: between ++ c2 :: after)
    with ((before ++ [c1]) ++ between ++ c2 :: after) in Hnd
    by (rewrite <- app_assoc; reflexivity).
  rewrite map_app in Hnd. apply NoDup_app in Hnd as (_ & Hdisj & _).
  apply (Hdisj (cid c2)).
  - apply list_elem_of_In, in_map. exact Hearly.
  - apply list_elem_of_In. rewrite map_app. apply in_or_app. right.
    left. reflexivity.
Qed.

Lemma customersOfSnapshot_In (col : gmap string Registration.CustomerDoc)
    (k : string) (d : Registration.CustomerDoc) :
  In (Registration.withId (k, d)) (Registration.customersOfSnapshot col) <->
  col !! k = Some d.
Proof.
  unfold Registration.customersOfSnapshot. rewrite in_map_iff. split.
  - intros [[k' d'] [E Hin]].
    assert (k' = k /\ d' = d) as [-> ->].
    { unfold Registration.withId in E. simpl in E.
      injection E as -> E1 E2 E3 E4 E5 E6. split; [reflexivity|].
      destruct d', d; simpl in *; congruence. }
    apply elem_of_map_to_list, list_elem_of_In. exact Hin.
  - intros H. exists (k, d). split; [reflexivity|].
    apply list_elem_of_In, elem_of_map_to_list. exact H.
Qed.

(** X8. A customer who has just been registered can log in: once the
    subscription has delivered the collection, login with the registered
    mobile number succeeds and makes the current user a CUSTOMER whose id
    is the id of a stored customer with that number; when no earlier
    customer has the number, it is the id the store gave the new one. *)
Theorem registered_customer_can_login :
  forall (col : gmap string Registration.CustomerDoc) (newId : string)
         (customer : Registration.CustomerDoc) (st : AppState),
    let col' := Registration.handleAddCustomer col newId customer in
    let st' :=
      Registration.setCustomers (Registration.customersOfSnapshot col') st in
    let r := App.loginAsCustomer st' (Registration.cd_mobileNumber customer) in
    fst r = true /\
    (exists (k : string) (d : Registration.CustomerDoc),
        col' !! k = Some d /\
        Registration.cd_mobileNumber d = Registration.cd_mobileNumber customer /\
        currentUser (snd r) = Some {| role := CUSTOMER; uid := Some k |}) /\
    ((forall k d, col !! k = Some d ->
                  Registration.cd_mobileNumber d <>
                  Registration.cd_mobileNumber customer) ->
     currentUser (snd r) = Some {| role := CUSTOMER; uid := Some newId |}).
Proof.
  intros col newId customer st col' st' r.
  set (m := Registration.cd_mobileNumber customer) in *.
  assert (Hnew : col' !! newId = Some customer) by apply lookup_insert_eq.
  assert (Hin : In (Registration.withId (newId, customer)) (customers st')).
  { apply customersOfSnapshot_In. exact Hnew. }
  destruct (find_is_Some (fun c => String.eqb (mobileNumber c) m)
              (customers st') _ Hin (String.eqb_refl _)) as [c Hfind].
  assert (Hr : r = (true, App.setCurrentUser
                            (Some {| role := CUSTOMER; uid := Some (cid c) |})
                            st'))
    by (apply loginAsCustomer_found; exact Hfind).
  destruct (find_resolved mobileNumber m _ c Hfind) as [Hc Hm].
  simpl in Hc. unfold Registration.customersOfSnapshot in Hc.
  apply in_map_iff in Hc as [[k d] [<- Hkd]].
  apply list_elem_of_In, elem_of_map_to_list in Hkd.
  rewrite Hr. simpl. split; [reflexivity|]. split.
  - exists k, d. split; [exact Hkd|]. split; [exact Hm | reflexivity].
  - intros Hfresh. destruct (decide (k = newId)) as [->|Hne]; [reflexivity|].
    exfalso. unfold col', Registration.handleAddCustomer in Hkd.
    rewrite lookup_insert_ne in Hkd by congruence.
    exact (Hfresh k d Hkd Hm).
Qed.

(** ** Ids and order numbers *)

Lemma substring_length (s : string) (from len : nat) :
  String.length (String.substring from len s)
  = Nat.min len (String.length s - from).
Proof.
  revert from len. induction s as [|c s IH]; intros from len.
  - destruct from, len; reflexivity.
  - destruct from as [|from].
    + destruct len as [|len]; [reflexivity|]. simpl. rewrite IH.
      rewrite Nat.sub_0_r. reflexivity.
    + simpl. destruct len; apply IH.
Qed.

Lemma substring_0_prefix (s : string) (len : nat) :
  String.prefix (String.substring 0 len s) s = true.
Proof.
  revert len. induction s as [|c s IH]; intros len.
  - destruct len; reflexivity.
  - destruct len as [|len]; [reflexivity|]. simpl.
    destruct (ascii_dec c c) as [_|N]; [apply IH | congruence].
Qed.

(** X9. The id of a new message has at most nine characters: the nine
    that follow the first two of the random text, or fewer when the
    random text is shorter than eleven characters (none at all when it
    has at most two). *)
Theorem message_id_length :
  forall random36 now u e : string,
    let m := App.newMessage random36 now u e in
    String.length (mid m) = Nat.min 9 (String.length random36 - 2) /\
    String.length (mid m) <= 9 /\
    (11 <= String.length random36 -> String.length (mid m) = 9) /\
    (String.length random36 <= 2 -> mid m = EmptyString).
Proof.
  intros r t u e m. subst m. unfold App.newMessage, Js.substr. simpl mid.
  pose proof (substring_length r 2 9) as H.
  split; [exact H|]. split; [lia|]. split; [lia|].
  intros Hshort.
  assert (H0 : String.length (String.substring 2 9 r) = 0) by lia.
  destruct (String.substring 2 9 r); [reflexivity | discriminate H0].
Qed.

Lemma substring_0_append (p rest : string) :
  String.substring 0 (String.length p) (String.append p rest) = p.
Proof.
  induction p as [|c p IH].
  - destruct rest; reflexivity.
  - rewrite append_cons. simpl. f_equal. exact IH.
Qed.

(** X10. The order number on a card is the beginning of the order id,
    cut after six characters: a prefix of the id, the whole id when the
    id has at most six characters, and otherwise its first six
    characters, so orders whose ids share these show the same number. *)
Theorem orderNumber_is_prefix :
  forall o : Order,
    String.prefix (OrdersTab.orderNumber o) (id o) = true /\
    String.length (OrdersTab.orderNumber o) = Nat.min 6 (String.length (id o)) /\
    (String.length (id o) <= 6 -> OrdersTab.orderNumber o = id o) /\
    (forall p rest,
        id o = String.append p rest -> String.length p = 6 ->
        OrdersTab.orderNumber o = p).
Proof.
  intros o. unfold OrdersTab.orderNumber, Js.substr.
  split; [apply substring_0_prefix|].
  split; [rewrite substring_length, Nat.sub_0_r; reflexivity|].
  split.
  - generalize (id o) 6. clear o. intros s.
    induction s as [|c s IH]; intros n Hn.
    + destruct n; reflexivity.
    + destruct n as [|n]; [simpl in Hn; lia|]. simpl. f_equal.
      apply IH. simpl in Hn. lia.
  - intros p rest -> Hp. rewrite <- Hp. apply substring_0_append.
Qed.

(** ** How the handlers compose *)

Lemma handleUpdateStatus_existing (col : gmap string OrderDoc) (i : string)
    (d : OrderDoc) (s : OrderStatus) :
  col !! i = Some d ->
  App.handleUpdateStatus col i s = Some (<[i := Firestore.patchStatus s d]> col).
Proof. apply updateDoc_existing. Qed.

Lemma patchStatus_same (d : OrderDoc) : Firestore.patchStatus (status d) d = d.
Proof. destruct d. reflexivity. Qed.

(** X11. The message handler builds the new sequence from the local
    list, not from the store: when M1 and then M2 are sent to a stored
    order from the same local list, with no refresh in between, both
    updates succeed and the stored messages end as M2 followed by the
    earlier messages; M1 is no longer stored. *)
Theorem unrefreshed_send_overwrites :
  forall (col : gmap string OrderDoc) (i : string) (d : OrderDoc)
         (r1 t1 u1 e1 r2 t2 u2 e2 : string),
    col !! i = Some d ->
    let os := App.ordersOfSnapshot col in
    let m1 := App.newMessage r1 t1 u1 e1 in
    let m2 := App.newMessage r2 t2 u2 e2 in
    exists (col1 col2 : gmap string OrderDoc) (d1 d2 : OrderDoc),
      App.handleSendMessage os col r1 t1 i u1 e1 = Some col1 /\
      col1 !! i = Some d1 /\
      messages d1 = m1 :: messages d /\
      App.handleSendMessage os col1 r2 t2 i u2 e2 = Some col2 /\
      col2 !! i = Some d2 /\
      messages d2 = m2 :: messages d /\
      sameExceptMessages d d2 /\
      (m1 <> m2 -> ~ In m1 (messages d) -> ~ In m1 (messages d2)).
Proof.
  intros col i d r1 t1 u1 e1 r2 t2 u2 e2 Hcol os m1 m2.
  pose proof (ordersOfSnapshot_find col i d Hcol) as Hfind.
  set (d1 := Firestore.patchMessages (m1 :: messages d) d).
  set (d2 := Firestore.patchMessages (m2 :: messages d) d).
  assert (H1 : <[i := d1]> col !! i = Some d1) by apply lookup_insert_eq.
  exists (<[i := d1]> col), (<[i := d2]> (<[i := d1]> col)), d1, d2.
  split; [exact (handleSendMessage_found os col r1 t1 i u1 e1 _ d Hfind Hcol)|].
  split; [exact H1|]. split; [reflexivity|].
  split; [exact (handleSendMessage_found os _ r2 t2 i u2 e2 _ d1 Hfind H1)|].
  split; [apply lookup_insert_eq|]. split; [reflexivity|].
  split; [repeat split|].
  intros Hne Hold. simpl. intros [E|Hin]; [congruence | exact (Hold Hin)].
Qed.

(** X12. The photo upload builds the new sequence from the order the
    view holds: when P1 and then P2 are uploaded from the same view of a
    stored order, with no refresh in between, both updates succeed and
    the stored photos end as the earlier photos followed by P2 alone. *)
Theorem unrefreshed_upload_overwrites :
  forall (col : gmap string OrderDoc) (order : Order) (P1 P2 : string),
    In order (App.ordersOfSnapshot col) ->
    let old := Js.orEmpty (photos (data order)) in
    exists (col1 col2 : gmap string OrderDoc) (d1 d2 : OrderDoc),
      tailorUploadsPhoto col order P1 = Some col1 /\
      col1 !! id order = Some d1 /\
      photos d1 = Some (old ++ [P1]) /\
      tailorUploadsPhoto col1 order P2 = Some col2 /\
      customerUploadsPhoto col1 order P2 = Some col2 /\
      col2 !! id order = Some d2 /\
      photos d2 = Some (old ++ [P2]) /\
      sameExceptPhotos (data order) d2.
Proof.
  intros col [i d] P1 P2 Hin old.
  apply ordersOfSnapshot_In in Hin. simpl in Hin, old |- *.
  set (d1 := Firestore.patchPhotos (old ++ [P1]) d).
  set (d2 := Firestore.patchPhotos (old ++ [P2]) d).
  assert (H1 : <[i := d1]> col !! i = Some d1) by apply lookup_insert_eq.
  exists (<[i := d1]> col), (<[i := d2]> (<[i := d1]> col)), d1, d2.
  split; [exact (handlePhotoUpdate_existing col i d _ Hin)|].
  split; [exact H1|]. split; [reflexivity|].
  split; [exact (handlePhotoUpdate_existing _ i d1 _ H1)|].
  split; [exact (handlePhotoUpdate_existing _ i d1 _ H1)|].
  split; [apply lookup_insert_eq|]. split; [reflexivity|]. repeat split.
Qed.

(** X13. On a stored order a status change and a message, each made
    from a refreshed list, can be done in either order: both succeed and
    the store ends the same, the order having the new status, the new
    message in front of the earlier ones, and its other fields as
    before. *)
Theorem status_and_message_commute :
  forall (col : gmap string OrderDoc) (i : string) (d : OrderDoc)
         (s : OrderStatus) (random36 now u e : string),
    col !! i = Some d ->
    exists (a b final : gmap string OrderDoc) (df : OrderDoc),
      App.handleUpdateStatus col i s = Some a /\
      App.handleSendMessage (App.ordersOfSnapshot a) a random36 now i u e
      = Some final /\
      App.handleSendMessage (App.ordersOfSnapshot col) col random36 now i u e
      = Some b /\
      App.handleUpdateStatus b i s = Some final /\
      final !! i = Some df /\
      status df = s /\
      messages df = App.newMessage random36 now u e :: messages d /\
      customerId df = customerId d /\
      measurements df = measurements d /\
      payment df = payment d /\
      photos df = photos d /\
      createdAt df = createdAt d /\
      (forall j, j <> i -> final !! j = col !! j).
Proof.
  intros col i d s r t u e Hcol.
  set (m := App.newMessage r t u e).
  set (ds := Firestore.patchStatus s d).
  set (dm := Firestore.patchMessages (m :: messages d) d).
  set (df := Firestore.patchStatus s dm).
  assert (Ha : <[i := ds]> col !! i = Some ds) by apply lookup_insert_eq.
  assert (Hb : <[i := dm]> col !! i = Some dm) by apply lookup_insert_eq.
  exists (<[i := ds]> col), (<[i := dm]> col), (<[i := df]> col), df.
  split; [exact (handleUpdateStatus_existing col i d s Hcol)|].
  split.
  { rewrite (handleSendMessage_found _ _ r t i u e _ ds
               (ordersOfSnapshot_find _ i ds Ha) Ha).
    rewrite insert_insert_eq. reflexivity. }
  split; [exact (handleSendMessage_found _ _ r t i u e _ d
                   (ordersOfSnapshot_find _ i d Hcol) Hcol)|].
  split.
  { rewrite (handleUpdateStatus_existing _ i dm s Hb).
    rewrite insert_insert_eq. reflexivity. }
  split; [apply lookup_insert_eq|].
  repeat (split; [reflexivity|]).
  intros j Hj. apply lookup_insert_ne. congruence.
Qed.

(** X14. The last status written wins, and writing the status an order
    already has changes nothing: on a stored order, setting [s1] and
    then [s2] leaves the store as setting [s2] alone does, and setting
    the current status leaves the store as it was. *)
Theorem status_last_write_wins :
  forall (col : gmap string OrderDoc) (i : string) (d : OrderDoc)
         (s1 s2 : OrderStatus),
    col !! i = Some d ->
    (exists a b : gmap string OrderDoc,
        App.handleUpdateStatus col i s1 = Some a /\
        App.handleUpdateStatus a i s2 = Some b /\
        App.handleUpdateStatus col i s2 = Some b) /\
    App.handleUpdateStatus col i (status d) = Some col.
Proof.
  intros col i d s1 s2 Hcol. split.
  - set (d1 := Firestore.patchStatus s1 d).
    assert (Ha : <[i := d1]> col !! i = Some d1) by apply lookup_insert_eq.
    exists (<[i := d1]> col), (<[i := Firestore.patchStatus s2 d]> col).
    split; [exact (handleUpdateStatus_existing col i d s1 Hcol)|].
    split; [|exact (handleUpdateStatus_existing col i d s2 Hcol)].
    rewrite (handleUpdateStatus_existing _ i d1 s2 Ha).
    rewrite insert_insert_eq. reflexivity.
  - rewrite (handleUpdateStatus_existing col i d _ Hcol), patchStatus_same.
    rewrite (insert_id col i d Hcol). reflexivity.
Qed.

(** X15. Creating an order under an id the store does not use yet adds
    exactly that order to what the subscription delivers: the new list
    holds the new order and the orders delivered before, nothing else,
    and is one longer. *)
Theorem handleAddOrder_adds_one :
  forall (col : gmap string OrderDoc) (newId now : string)
         (orderData : App.OrderData),
    col !! newId = None ->
    let col' := App.handleAddOrder col newId now orderData in
    (forall o,
        In o (App.ordersOfSnapshot col') <->
        o = {| id := newId; data := App.newOrderDoc now orderData |} \/
        In o (App.ordersOfSnapshot col)) /\
    List.length (App.ordersOfSnapshot col')
    = S (List.length (App.ordersOfSnapshot col)).
Proof.
  intros col newId now od Hfresh col'. subst col'.
  unfold App.handleAddOrder, Firestore.addDoc. split.
  - intros [k d]. rewrite !ordersOfSnapshot_In. simpl.
    destruct (decide (k = newId)) as [->|Hne].
    + rewrite lookup_insert_eq, Hfresh. split.
      * intros [= <-]. left. reflexivity.
      * intros [[= <-]|H]; [reflexivity | discriminate].
    + rewrite lookup_insert_ne by congruence. split; [auto|].
      intros [[= E _]|H]; [congruence | exact H].
  - unfold App.ordersOfSnapshot. rewrite !length_map.
    rewrite (Permutation_length (map_to_list_insert col newId _ Hfresh)).
    reflexivity.
Qed.

(** ** Invariants of a session *)

Lemma sameFixedFields_refl (d : OrderDoc) : Session.sameFixedFields d d.
Proof. repeat split. Qed.

Lemma sameFixedFields_trans (a b c : OrderDoc) :
  Session.sameFixedFields a b -> Session.sameFixedFields b c ->
  Session.sameFixedFields a c.
Proof.
  unfold Session.sameFixedFields.
  intros (A1 & A2 & A3 & A4) (B1 & B2 & B3 & B4).
  repeat split; congruence.
Qed.

(** What an accepted update does to the documents of the collection. *)
Lemma updateDoc_lookup (col col' : gmap string OrderDoc) (k : string)
    (patch : OrderDoc -> OrderDoc) :
  Firestore.updateDoc col k patch = Some col' ->
  exists d0, col !! k = Some d0 /\ col' = <[k := patch d0]> col.
Proof.
  unfold Firestore.updateDoc. destruct (col !! k) as [d0|]; [|discriminate].
  intros [= <-]. exists d0. split; reflexivity.
Qed.

Lemma updateDoc_keeps (P : OrderDoc -> OrderDoc -> Prop)
    (col col' : gmap string OrderDoc) (k : string)
    (patch : OrderDoc -> OrderDoc) :
  (forall d, P d d) -> (forall d, P d (patch d)) ->
  Firestore.updateDoc col k patch = Some col' ->
  forall i d, col !! i = Some d -> exists d', col' !! i = Some d' /\ P d d'.
Proof.
  intros Hrefl Hpatch Hup i d Hi.
  apply updateDoc_lookup in Hup as (d0 & Hk & ->).
  destruct (decide (k = i)) as [->|Hne].
  - rewrite lookup_insert_eq. exists (patch d0). split; [reflexivity|].
    replace d with d0 by congruence. apply Hpatch.
  - rewrite lookup_insert_ne by exact Hne. exists d. split; [exact Hi|].
    apply Hrefl.
Qed.

Lemma updateDoc_all (Q : OrderDoc -> Prop)
    (col col' : gmap string OrderDoc) (k : string)
    (patch : OrderDoc -> OrderDoc) :
  (forall d, Q d -> Q (patch d)) ->
  Firestore.updateDoc col k patch = Some col' ->
  (forall i d, col !! i = Some d -> Q d) ->
  forall i d, col' !! i = Some d -> Q d.
Proof.
  intros Hpatch Hup Hall i d Hi.
  apply updateDoc_lookup in Hup as (d0 & Hk & ->).
  destruct (decide (k = i)) as [->|Hne].
  - rewrite lookup_insert_eq in Hi. injection Hi as <-.
    apply Hpatch. exact (Hall i d0 Hk).
  - rewrite lookup_insert_ne in Hi by exact Hne. exact (Hall i d Hi).
Qed.

Lemma patches_keep_fixed_fields (d : OrderDoc) :
  (forall s, Session.sameFixedFields d (Firestore.patchStatus s d)) /\
  (forall ms, Session.sameFixedFields d (Firestore.patchMessages ms d)) /\
  (forall ps, Session.sameFixedFields d (Firestore.patchPhotos ps d)).
Proof. repeat split. Qed.

Lemma patches_keep_wellFormed (d : OrderDoc) :
  Session.wellFormed d ->
  (forall s, Session.wellFormed (Firestore.patchStatus s d)) /\
  (forall ms, Session.wellFormed (Firestore.patchMessages ms d)) /\
  (forall ps, Session.wellFormed (Firestore.patchPhotos ps d)).
Proof.
  intros [Hp Hph]. repeat split; try exact Hp; try exact Hph. discriminate.
Qed.

Lemma submitted_order_wellFormed (now selected : string) (meas : Measurements)
    (price advance : float) :
  Session.wellFormed
    (App.newOrderDoc now (OrdersTab.submittedOrder selected meas price advance)).
Proof. split; [reflexivity | discriminate]. Qed.

(** Every event leaves the store alone, adds a well-formed document
    under a new id, or is an accepted update of the status, the messages
    or the photos. *)
Lemma step_store (w w' : Session.World) :
  Session.step w w' ->
  Session.store w' = Session.store w \/
  (exists newId d0,
      Session.store w !! newId = None /\
      Session.wellFormed d0 /\
      Session.store w' = <[newId := d0]> (Session.store w)) \/
  (exists k s, Firestore.updateDoc (Session.store w) k (Firestore.patchStatus s)
               = Some (Session.store w')) \/
  (exists k ms, Firestore.updateDoc (Session.store w) k
                  (Firestore.patchMessages ms) = Some (Session.store w')) \/
  (exists k ps, Firestore.updateDoc (Session.store w) k
                  (Firestore.patchPhotos ps) = Some (Session.store w')).
Proof.
  intros H. destruct H; simpl.
  - left. reflexivity.
  - right. left. eexists newId, _. split; [assumption|].
    split; [apply (submitted_order_wellFormed now selected meas price advance)|].
    reflexivity.
  - right. right. left. exists (id o), s. assumption.
  - unfold App.handleSendMessage in *.
    destruct (find _ (Session.view w)) as [order|].
    + right. right. right. left. eexists _, _. eassumption.
    + left. congruence.
  - right. right. right. right. eexists _, _. eassumption.
  - right. right. right. right. eexists _, _. eassumption.
Qed.

Lemma step_keeps_fixed_fields (w w' : Session.World) :
  Session.step w w' ->
  forall i d, Session.store w !! i = Some d ->
  exists d', Session.store w' !! i = Some d' /\ Session.sameFixedFields d d'.
Proof.
  intros H i d Hi.
  destruct (step_store w w' H)
    as [E|[(newId & d0 & Hfresh & _ & E)
          |[(k & s & Hup)|[(k & ms & Hup)|(k & ps & Hup)]]]].
  - rewrite E. exists d. split; [exact Hi | apply sameFixedFields_refl].
  - rewrite E. exists d. split; [|apply sameFixedFields_refl].
    rewrite lookup_insert_ne by congruence. exact Hi.
  - apply (updateDoc_keeps Session.sameFixedFields _ _ k
             (Firestore.patchStatus s) sameFixedFields_refl
             (fun d => proj1 (patches_keep_fixed_fields d) s) Hup i d Hi).
  - apply (updateDoc_keeps Session.sameFixedFields _ _ k
             (Firestore.patchMessages ms) sameFixedFields_refl
             (fun d => proj1 (proj2 (patches_keep_fixed_fields d)) ms)
             Hup i d Hi).
  - apply (updateDoc_keeps Session.sameFixedFields _ _ k
             (Firestore.patchPhotos ps) sameFixedFields_refl
             (fun d => proj2 (proj2 (patches_keep_fixed_fields d)) ps)
             Hup i d Hi).
Qed.

(** X16. No sequence of events removes an order or changes its customer
    id, its measurements, its payment or its creation time: an order
    stored at some point is still stored after any further events, with
    these four fields as they were. *)
Theorem orders_persist_with_fixed_fields :
  forall (w w' : Session.World) (i : string) (d : OrderDoc),
    rtc Session.step w w' ->
    Session.store w !! i = Some d ->
    exists d' : OrderDoc,
      Session.store w' !! i = Some d' /\
      customerId d' = customerId d /\
      measurements d' = measurements d /\
      payment d' = payment d /\
      createdAt d' = createdAt d.
Proof.
  intros w w' i d Hrun. revert d.
  induction Hrun as [w|w w1 w' Hstep Hrun IH]; intros d Hi.
  - exists d. split; [exact Hi | repeat split].
  - destruct (step_keeps_fixed_fields w w1 Hstep i d Hi) as (d1 & H1 & F1).
    destruct (IH d1 H1) as (d' & H' & F').
    exists d'. split; [exact H'|].
    exact (sameFixedFields_trans d d1 d' F1 F').
Qed.

(** The invariant behind the next two properties: the listed orders are
    stored, and stored and listed orders are well formed. *)
Lemma reachable_invariant (w : Session.World) :
  Session.reachable w ->
  (forall o, In o (Session.view w) -> is_Some (Session.store w !! id o)) /\
  (forall i d, Session.store w !! i = Some d -> Session.wellFormed d) /\
  (forall o, In o (Session.view w) -> Session.wellFormed (data o)).
Proof.
  unfold Session.reachable. intros Hreach. pattern w.
  eapply (rtc_ind_r _ Session.initial); [| |exact Hreach]; clear w Hreach.
  - simpl. split; [intros o []|]. split; [|intros o []].
    intros i d Hi. rewrite lookup_empty in Hi. discriminate.
  - intros w1 w2 Hrun Hstep (Iview & Istore & Idata).
    assert (Hstore2 : forall i d, Session.store w2 !! i = Some d ->
                                  Session.wellFormed d).
    { destruct (step_store w1 w2 Hstep)
        as [E|[(newId & d0 & Hfresh & Hwf & E)
              |[(k & s & Hup)|[(k & ms & Hup)|(k & ps & Hup)]]]].
      - rewrite E. exact Istore.
      - rewrite E. intros i d Hi.
        destruct (decide (newId = i)) as [->|Hne].
        + rewrite lookup_insert_eq in Hi. injection Hi as <-. exact Hwf.
        + rewrite lookup_insert_ne in Hi by exact Hne. exact (Istore i d Hi).
      - apply (updateDoc_all Session.wellFormed _ _ k _
                 (fun d H => proj1 (patches_keep_wellFormed d H) s) Hup Istore).
      - apply (updateDoc_all Session.wellFormed _ _ k _
                 (fun d H => proj1 (proj2 (patches_keep_wellFormed d H)) ms)
                 Hup Istore).
      - apply (updateDoc_all Session.wellFormed _ _ k _
                 (fun d H => proj2 (proj2 (patches_keep_wellFormed d H)) ps)
                 Hup Istore). }
    assert (Hview2 :
              Session.view w2 = Session.view w1 \/
              Session.view w2 = App.ordersOfSnapshot (Session.store w2)).
    { destruct Hstep; simpl; auto. }
    split; [|split; [exact Hstore2|]].
    + intros o Ho. destruct Hview2 as [E|E]; rewrite E in Ho.
      * destruct (Iview o Ho) as [d Hd].
        destruct (step_keeps_fixed_fields w1 w2 Hstep (id o) d Hd)
          as (d' & Hd' & _).
        exists d'. exact Hd'.
      * apply ordersOfSnapshot_In in Ho. exists (data o). exact Ho.
    + intros o Ho. destruct Hview2 as [E|E]; rewrite E in Ho.
      * exact (Idata o Ho).
      * apply ordersOfSnapshot_In in Ho. exact (Hstore2 _ _ Ho).
Qed.

(** X17. In a session that starts with an empty store, every update
    fired from a listed order is accepted: the status change, the
    message and the photo upload of either view find the document they
    write to, however old the local list is. *)
Theorem listed_order_updates_are_accepted :
  forall (w : Session.World) (o : Order),
    Session.reachable w ->
    In o (Session.view w) ->
    forall (s : OrderStatus) (random36 now u e result : string),
      is_Some (App.handleUpdateStatus (Session.store w) (id o) s) /\
      is_Some (App.handleSendMessage (Session.view w) (Session.store w)
                 random36 now (id o) u e) /\
      is_Some (tailorUploadsPhoto (Session.store w) o result) /\
      is_Some (customerUploadsPhoto (Session.store w) o result).
Proof.
  intros w o Hreach Ho s r t u e p.
  destruct (reachable_invariant w Hreach) as (Iview & _ & _).
  destruct (Iview o Ho) as [d Hd].
  split; [rewrite (handleUpdateStatus_existing _ _ d s Hd); eexists; reflexivity|].
  split.
  - destruct (find_is_Some (fun o' => String.eqb (id o') (id o))
                (Session.view w) o Ho (String.eqb_refl _)) as [o' Hfind].
    rewrite (handleSendMessage_found _ _ r t _ u e o' d Hfind Hd).
    eexists; reflexivity.
  - split; [unfold tailorUploadsPhoto | unfold customerUploadsPhoto];
      rewrite (handlePhotoUpdate_existing _ _ d _ Hd); eexists; reflexivity.
Qed.

(** X18. In a session that starts with an empty store, every stored
    order and every listed order keeps the payment the form derived:
    the remaining amount is the price minus the advance, the status is
    PAID exactly when that amount is [<= 0]; and its photo list is
    always present, so the empty-list fallback of the upload is not
    needed. *)
Theorem session_orders_are_well_formed :
  forall (w : Session.World),
    Session.reachable w ->
    forall d : OrderDoc,
      ((exists i, Session.store w !! i = Some d) \/
       (exists o, In o (Session.view w) /\ data o = d)) ->
      remainingAmount (payment d)
      = (stitchingPrice (payment d) - advancePaid (payment d))%float /\
      (pstatus (payment d) = PAID <->
       (remainingAmount (payment d) <=? 0)%float = true) /\
      (exists ps, photos d = Some ps).
Proof.
  intros w Hreach d Hd.
  destruct (reachable_invariant w Hreach) as (_ & Istore & Idata).
  assert (Hwf : Session.wellFormed d).
  { destruct Hd as [[i Hi]|(o & Ho & <-)];
      [exact (Istore i d Hi) | exact (Idata o Ho)]. }
  destruct Hwf as [Hpay Hph].
  split; [rewrite Hpay at 1; reflexivity|].
  split.
  - rewrite Hpay at 1 2. simpl.
    unfold OrderForm.due. simpl.
    destruct (_ <=? 0)%float; split; congruence.
  - destruct (photos d) as [ps|]; [exists ps; reflexivity | congruence].
Qed.

Lemma sample_world_reachable : Session.reachable SampleSession.world1.
Proof.
  unfold Session.reachable.
  apply (rtc_l _ _ SampleSession.world0).
  - apply (Session.step_add Session.initial "ORD1abc" Sample.created "c1"
             Sample.meas 1500 500). reflexivity.
  - apply rtc_once.
    exact (Session.step_snapshot SampleSession.world0).
Qed.

(** ** Binary64 subtraction and comparison *)

Section SpecFloatFacts.

Variables prec emax : Z.
Hypothesis prec_pos : (0 < prec)%Z.

Local Open Scope Z_scope.

Lemma digits2_pos_bounds (m : positive) :
  2 ^ (Z.pos (digits2_pos m) - 1) <= Z.pos m < 2 ^ Z.pos (digits2_pos m).
Proof.
  induction m as [m IH|m IH|]; simpl digits2_pos.
  - rewrite Pos2Z.inj_succ.
    replace (Z.succ (Z.pos (digits2_pos m)) - 1)
      with (Z.succ (Z.pos (digits2_pos m) - 1)) by lia.
    rewrite !Z.pow_succ_r by lia. lia.
  - rewrite Pos2Z.inj_succ.
    replace (Z.succ (Z.pos (digits2_pos m)) - 1)
      with (Z.succ (Z.pos (digits2_pos m) - 1)) by lia.
    rewrite !Z.pow_succ_r by lia. lia.
  - simpl. lia.
Qed.

Lemma iter_xO_value (m d : positive) :
  Z.pos (Pos.iter xO m d) = Z.pos m * 2 ^ Z.pos d.
Proof.
  induction d as [|d IH] using Pos.peano_ind.
  - simpl. lia.
  - rewrite Pos.iter_succ, Pos2Z.inj_xO, IH, Pos2Z.inj_succ.
    rewrite Z.pow_succ_r by lia. lia.
Qed.

(** The aligned mantissa: [m * 2 ^ (e - e')] for [e' <= e]. *)
Lemma shl_align_value (m : positive) (e e' : Z) :
  e' <= e ->
  Z.pos (fst (shl_align m e e')) = Z.pos m * 2 ^ (e - e') /\
  snd (shl_align m e e') = e'.
Proof.
  intros H. unfold shl_align.
  destruct (e' - e) as [|p|p] eqn:E.
  - simpl. replace (e - e') with 0 by lia. simpl. lia.
  - lia.
  - simpl. rewrite iter_xO_value. replace (e - e') with (Z.pos p) by lia.
    split; reflexivity.
Qed.

Lemma shr_1_m (mrs : shr_record) :
  0 <= shr_m mrs -> shr_m (shr_1 mrs) = shr_m mrs / 2.
Proof.
  destruct mrs as [m r s]. simpl. intros H.
  destruct m as [|[p|p|]|p]; simpl; try reflexivity; try lia.
  - rewrite Pos2Z.inj_xI. apply Z.div_unique with (r := 1); lia.
  - rewrite Pos2Z.inj_xO. apply Z.div_unique with (r := 0); lia.
Qed.

Lemma iter_shr_1_m (p : positive) (mrs : shr_record) :
  0 <= shr_m mrs ->
  shr_m (SpecFloat.iter_pos shr_1 p mrs) = shr_m mrs / 2 ^ Z.pos p.
Proof.
  revert mrs. induction p as [p IH|p IH|]; intros mrs H; simpl SpecFloat.iter_pos.
  - assert (H1 : 0 <= shr_m (shr_1 mrs)).
    { rewrite shr_1_m by exact H. apply Z.div_pos; lia. }
    assert (H2 : 0 <= shr_m (SpecFloat.iter_pos shr_1 p (shr_1 mrs))).
    { rewrite IH by exact H1. apply Z.div_pos; [exact H1|].
      apply Z.pow_pos_nonneg; lia. }
    rewrite IH by exact H2. rewrite IH by exact H1. rewrite shr_1_m by exact H.
    assert (P : 0 < 2 ^ Z.pos p) by (apply Z.pow_pos_nonneg; lia).
    rewrite !Z.div_div by lia.
    f_equal.
    assert (Q : 2 ^ Z.pos p~1 = 2 ^ 1 * 2 ^ Z.pos p * 2 ^ Z.pos p)
      by (rewrite <- !Z.pow_add_r by lia; f_equal; lia).
    rewrite Q. lia.
  - assert (H2 : 0 <= shr_m (SpecFloat.iter_pos shr_1 p mrs)).
    { rewrite IH by exact H. apply Z.div_pos; [exact H|].
      apply Z.pow_pos_nonneg; lia. }
    rewrite IH by exact H2. rewrite IH by exact H.
    assert (P : 0 < 2 ^ Z.pos p) by (apply Z.pow_pos_nonneg; lia).
    rewrite Z.div_div by lia.
    f_equal.
    assert (Q : 2 ^ Z.pos p~0 = 2 ^ Z.pos p * 2 ^ Z.pos p)
      by (rewrite <- !Z.pow_add_r by lia; f_equal; lia).
    rewrite Q. reflexivity.
  - rewrite shr_1_m by exact H. reflexivity.
Qed.

Lemma shr_record_of_loc_m (m : Z) (l : location) :
  shr_m (shr_record_of_loc m l) = m.
Proof. destruct l as [|[]]; reflexivity. Qed.

Lemma fexp_ge_emin (e : Z) : SpecFloat.emin prec emax <= SpecFloat.fexp prec emax e.
Proof. unfold SpecFloat.fexp, SpecFloat.emin. lia. Qed.

(** Shifting a positive mantissa to its canonical exponent leaves a
    positive mantissa, when the exponent is not below [emin]. *)
Lemma shr_fexp_positive (m : positive) (e : Z) (l : location) :
  SpecFloat.emin prec emax <= e ->
  0 < shr_m (fst (shr_fexp prec emax (Z.pos m) e l)) /\
  SpecFloat.emin prec emax <= snd (shr_fexp prec emax (Z.pos m) e l).
Proof.
  intros He. unfold shr_fexp, shr. simpl Zdigits2.
  destruct (SpecFloat.fexp prec emax (Z.pos (digits2_pos m) + e) - e) as [|n|n] eqn:E;
    simpl; rewrite ?shr_record_of_loc_m; try lia.
  rewrite iter_shr_1_m by (rewrite shr_record_of_loc_m; lia).
  rewrite shr_record_of_loc_m.
  unfold SpecFloat.fexp, SpecFloat.emin in *.
  assert (Hn : Z.pos n <= Z.pos (digits2_pos m) - 1) by lia.
  split; [|lia].
  pose proof (digits2_pos_bounds m) as [Hlow _].
  assert (P : 0 < 2 ^ Z.pos n) by (apply Z.pow_pos_nonneg; lia).
  assert (Hle : 2 ^ Z.pos n <= 2 ^ (Z.pos (digits2_pos m) - 1))
    by (apply Z.pow_le_mono_r; lia).
  assert (1 <= Z.pos m / 2 ^ Z.pos n); [|lia].
  apply Z.div_le_lower_bound; lia.
Qed.

Lemma round_nearest_even_positive (m : Z) (l : location) :
  0 < m -> 0 < round_nearest_even m l.
Proof.
  intros H. destruct l as [|[]]; simpl; try lia.
  destruct (Z.even m); lia.
Qed.

Lemma binary_round_aux_signed (sx : bool) (m : positive) (e : Z) (l : location) :
  SpecFloat.emin prec emax <= e ->
  FloatSpec.signed sx (binary_round_aux prec emax sx (Z.pos m) e l).
Proof.
  intros He. unfold binary_round_aux.
  pose proof (shr_fexp_positive m e l He) as [H1 H2].
  destruct (shr_fexp prec emax (Z.pos m) e l) as [mrs' e'].
  simpl in H1, H2.
  pose proof (round_nearest_even_positive (shr_m mrs')
                (loc_of_shr_record mrs') H1) as H3.
  destruct (round_nearest_even (shr_m mrs') (loc_of_shr_record mrs'))
    as [|m1|m1]; try lia.
  pose proof (shr_fexp_positive m1 e' loc_Exact H2) as [H4 _].
  destruct (shr_fexp prec emax (Z.pos m1) e' loc_Exact) as [mrs'' e''].
  simpl in H4.
  destruct (shr_m mrs'') as [|m2|m2]; try lia.
  destruct (e'' <=? emax - prec); [left; eauto | right; reflexivity].
Qed.

Lemma binary_round_signed (sx : bool) (m : positive) (e : Z) :
  SpecFloat.emin prec emax <= e ->
  FloatSpec.signed sx (binary_round prec emax sx m e).
Proof.
  intros He. unfold binary_round.
  pose proof (fexp_ge_emin (Z.pos (digits2_pos m) + e)) as Hf.
  unfold shl_align.
  destruct (SpecFloat.fexp prec emax (Z.pos (digits2_pos m) + e) - e) as [|d|d] eqn:E;
    apply binary_round_aux_signed; lia.
Qed.


(** A canonical mantissa has at most [prec] digits, exactly [prec] above
    the least exponent, and its exponent is at least [emin]. *)
Lemma bounded_digits (m : positive) (e : Z) :
  bounded prec emax m e = true ->
  SpecFloat.emin prec emax <= e /\
  Z.pos (digits2_pos m) <= prec /\
  (SpecFloat.emin prec emax < e -> Z.pos (digits2_pos m) = prec).
Proof.
  unfold bounded, canonical_mantissa, SpecFloat.fexp.
  intros H. apply andb_true_iff in H as [H _]. apply Z.eqb_eq in H. lia.
Qed.

Lemma lower_exponent_is_smaller (mx my : positive) (ex ey : Z) :
  bounded prec emax mx ex = true -> bounded prec emax my ey = true ->
  ex < ey -> Z.pos mx < Z.pos my * 2 ^ (ey - ex).
Proof.
  intros Hx Hy Hlt.
  destruct (bounded_digits mx ex Hx) as (Hex & Hdx & _).
  destruct (bounded_digits my ey Hy) as (_ & _ & Hdy).
  specialize (Hdy ltac:(lia)).
  pose proof (digits2_pos_bounds mx) as [_ Hmx].
  pose proof (digits2_pos_bounds my) as [Hmy _].
  rewrite Hdy in Hmy.
  assert (H1 : 2 ^ Z.pos (digits2_pos mx) <= 2 ^ prec)
    by (apply Z.pow_le_mono_r; lia).
  assert (H2 : 2 ^ 1 <= 2 ^ (ey - ex)) by (apply Z.pow_le_mono_r; lia).
  assert (H3 : 2 ^ prec = 2 ^ (prec - 1) * 2 ^ 1)
    by (rewrite <- Z.pow_add_r by lia; f_equal; lia).
  assert (H4 : 0 < 2 ^ (prec - 1)) by (apply Z.pow_pos_nonneg; lia).
  nia.
Qed.

(** The comparison of two finite numbers is the sign of the difference of
    their aligned mantissas. *)
Lemma SFcompare_finite (sx : bool) (mx : positive) (ex : Z)
    (sy : bool) (my : positive) (ey : Z) :
  bounded prec emax mx ex = true -> bounded prec emax my ey = true ->
  SFcompare (S754_finite sx mx ex) (S754_finite sy my ey)
  = Some (FloatSpec.sub_mantissa sx mx ex sy my ey ?= 0).
Proof.
  intros Hx Hy. unfold FloatSpec.sub_mantissa.
  destruct (shl_align_value mx ex (Z.min ex ey) ltac:(lia)) as [-> _].
  destruct (shl_align_value my ey (Z.min ex ey) ltac:(lia)) as [-> _].
  assert (PA : 0 < Z.pos mx * 2 ^ (ex - Z.min ex ey))
    by (apply Z.mul_pos_pos; [lia | apply Z.pow_pos_nonneg; lia]).
  assert (PB : 0 < Z.pos my * 2 ^ (ey - Z.min ex ey))
    by (apply Z.mul_pos_pos; [lia | apply Z.pow_pos_nonneg; lia]).
  assert (Hcmp :
            (ex < ey /\ Z.pos mx * 2 ^ (ex - Z.min ex ey)
                        < Z.pos my * 2 ^ (ey - Z.min ex ey)) \/
            (ey < ex /\ Z.pos my * 2 ^ (ey - Z.min ex ey)
                        < Z.pos mx * 2 ^ (ex - Z.min ex ey)) \/
            (ex = ey /\ Z.pos mx * 2 ^ (ex - Z.min ex ey) = Z.pos mx
             /\ Z.pos my * 2 ^ (ey - Z.min ex ey) = Z.pos my)).
  { destruct (Z.lt_trichotomy ex ey) as [H|[H|H]].
    - left. split; [exact H|].
      replace (Z.min ex ey) with ex by lia. rewrite Z.sub_diag, Z.mul_1_r.
      apply lower_exponent_is_smaller; assumption.
    - right. right. subst ey. rewrite Z.min_id, Z.sub_diag, !Z.mul_1_r. auto.
    - right. left. split; [exact H|].
      replace (Z.min ex ey) with ey by lia. rewrite Z.sub_diag, Z.mul_1_r.
      apply lower_exponent_is_smaller; assumption. }
  simpl SFcompare. f_equal.
  destruct Hcmp as [[He Hm]|[[He Hm]|(He & HA & HB)]].
  - rewrite (proj2 (Z.compare_lt_iff ex ey) He).
    destruct sx, sy; simpl cond_Zopp; symmetry.
    + apply Z.compare_gt_iff. lia.
    + apply Z.compare_lt_iff. lia.
    + apply Z.compare_gt_iff. lia.
    + apply Z.compare_lt_iff. lia.
  - rewrite (proj2 (Z.compare_gt_iff ex ey) He).
    destruct sx, sy; simpl cond_Zopp; symmetry.
    + apply Z.compare_lt_iff. lia.
    + apply Z.compare_lt_iff. lia.
    + apply Z.compare_gt_iff. lia.
    + apply Z.compare_gt_iff. lia.
  - rewrite HA, HB. subst ey. rewrite Z.compare_refl, Pos.compare_cont_spec.
    destruct (Pos.compare_spec mx my) as [E|L|G]; simpl Pos.switch_Eq;
      destruct sx, sy; simpl cond_Zopp; simpl CompOpp; symmetry;
      first [ apply Z.compare_eq_iff; lia
            | apply Z.compare_lt_iff; lia
            | apply Z.compare_gt_iff; lia ].
Qed.

Lemma signed_compare_zero (s : bool) (r : spec_float) :
  FloatSpec.signed s r ->
  SFcompare r (S754_zero false) = Some (if s then Lt else Gt).
Proof. intros [(m & e & ->)| ->]; reflexivity. Qed.

(** Comparing a difference with zero is comparing the two numbers. *)
Lemma SFsub_compare_zero (x y : spec_float) :
  SpecFloat.valid_binary prec emax x = true ->
  SpecFloat.valid_binary prec emax y = true ->
  FloatSpec.finite_or_zero x -> FloatSpec.finite_or_zero y ->
  SFcompare (SFsub prec emax x y) (S754_zero false) = SFcompare x y.
Proof.
  intros Vx Vy Fx Fy.
  destruct x as [sx| | |sx mx ex], y as [sy| | |sy my ey];
    try contradiction; simpl in Vx, Vy.
  - destruct sx, sy; reflexivity.
  - destruct sy; reflexivity.
  - destruct sx; reflexivity.
  - rewrite (SFcompare_finite sx mx ex sy my ey Vx Vy).
    unfold SFsub. fold (FloatSpec.sub_mantissa sx mx ex sy my ey).
    destruct (bounded_digits mx ex Vx) as (Hex & _).
    destruct (bounded_digits my ey Vy) as (Hey & _).
    assert (Hez : SpecFloat.emin prec emax <= Z.min ex ey) by lia.
    destruct (FloatSpec.sub_mantissa sx mx ex sy my ey) as [|p|p]; simpl binary_normalize.
    + reflexivity.
    + apply (signed_compare_zero false), binary_round_signed. exact Hez.
    + apply (signed_compare_zero true), binary_round_signed. exact Hez.
Qed.

End SpecFloatFacts.

Section Binary64Facts.

Local Open Scope float_scope.

Lemma is_finite_spec (x : float) :
  is_finite x = true -> FloatSpec.finite_or_zero (Prim2SF x).
Proof.
  unfold is_finite, is_nan, is_infinity.
  rewrite !FloatAxioms.eqb_spec, FloatAxioms.abs_spec.
  replace (Prim2SF infinity) with (S754_infinity false) by reflexivity.
  destruct (Prim2SF x) as [s|[]| |s m e]; simpl; try exact (fun _ => I);
    discriminate.
Qed.

Lemma Prim2SF_zero : Prim2SF 0 = S754_zero false.
Proof. reflexivity. Qed.

Lemma SFcompare_antisym (x y : spec_float) :
  SFcompare y x = option_map CompOpp (SFcompare x y).
Proof.
  destruct x as [sx|sx| |sx mx ex], y as [sy|sy| |sy my ey]; simpl;
    try reflexivity;
    try (destruct sx; reflexivity); try (destruct sy; reflexivity);
    try (destruct sx, sy; reflexivity).
  f_equal. destruct sx, sy; try reflexivity.
  - rewrite (Z.compare_antisym ex ey).
    destruct (ex ?= ey)%Z; simpl; try reflexivity.
    rewrite (Pos.compare_cont_antisym mx my Eq). reflexivity.
  - rewrite (Z.compare_antisym ex ey).
    destruct (ex ?= ey)%Z; simpl; try reflexivity.
    rewrite (Pos.compare_cont_antisym mx my Eq). reflexivity.
Qed.

Lemma SFcompare_finite_or_zero (x y : spec_float) :
  FloatSpec.finite_or_zero x -> FloatSpec.finite_or_zero y -> exists c, SFcompare x y = Some c.
Proof.
  destruct x, y; simpl; try contradiction; intros _ _; eexists; reflexivity.
Qed.

(** For finite numbers the difference is below, at or above zero exactly
    as the first number is below, at or above the second. *)
Lemma sub_compare_zero (x y : float) :
  is_finite x = true -> is_finite y = true ->
  (x - y <=? 0) = (x <=? y) /\
  (x - y <? 0) = (x <? y) /\
  (x - y =? 0) = (x =? y) /\
  (0 <? x - y) = (y <? x) /\
  (x <=? y) = negb (y <? x).
Proof.
  intros Fx Fy.
  pose proof (SFsub_compare_zero prec emax ltac:(reflexivity)
                (Prim2SF x) (Prim2SF y) (Prim2SF_valid x) (Prim2SF_valid y)
                (is_finite_spec x Fx) (is_finite_spec y Fy)) as H.
  destruct (SFcompare_finite_or_zero _ _ (is_finite_spec x Fx)
              (is_finite_spec y Fy)) as [c Hc].
  rewrite !FloatAxioms.leb_spec, !FloatAxioms.ltb_spec, !FloatAxioms.eqb_spec,
    !FloatAxioms.sub_spec, Prim2SF_zero.
  unfold SFleb, SFltb, SFeqb, SF64sub.
  rewrite (SFcompare_antisym (SFsub prec emax (Prim2SF x) (Prim2SF y))
             (S754_zero false)).
  rewrite (SFcompare_antisym (Prim2SF x) (Prim2SF y)).
  rewrite H, Hc. destruct c; repeat split; reflexivity.
Qed.

End Binary64Facts.

(** ** Payment, for finite amounts *)

Section PaymentFacts.

Local Open Scope float_scope.

Lemma SFeqb_refl (x : spec_float) : x <> S754_nan -> SFeqb x x = true.
Proof.
  destruct x as [s|s| |s m e]; intros H; try congruence;
    unfold SFeqb; simpl; try (destruct s; reflexivity).
  destruct s; rewrite Z.compare_refl, Pos.compare_cont_refl; reflexivity.
Qed.

Lemma is_nan_spec (x : float) : is_nan x = true <-> Prim2SF x = S754_nan.
Proof.
  unfold is_nan. rewrite FloatAxioms.eqb_spec. split.
  - intros H. destruct (Prim2SF x) eqn:E; try reflexivity;
      rewrite SFeqb_refl in H by discriminate; discriminate.
  - intros ->. reflexivity.
Qed.

End PaymentFacts.

(** X19. When the price and the advance are finite numbers, the order
    reads PAID exactly when the price is at most the advance and UNPAID
    exactly when the advance is below the price; the remaining amount
    is negative, zero or positive exactly as the price is below, equal
    to or above the advance. *)
Theorem derivePayment_compares_price_and_advance :
  forall price advance : float,
    is_finite price = true ->
    is_finite advance = true ->
    let p := OrderForm.derivePayment price advance in
    (pstatus p = PAID <-> (price <=? advance)%float = true) /\
    (pstatus p = UNPAID <-> (advance <? price)%float = true) /\
    (remainingAmount p <? 0)%float = (price <? advance)%float /\
    (remainingAmount p =? 0)%float = (price =? advance)%float /\
    (0 <? remainingAmount p)%float = (advance <? price)%float.
Proof.
  intros price advance Fp Fa p. subst p.
  destruct (sub_compare_zero price advance Fp Fa) as (Hle & Hlt & Heq & Hgt & Hneg).
  unfold OrderForm.derivePayment, OrderForm.due. simpl.
  rewrite Hle, Hlt, Heq, Hgt, Hneg.
  destruct (advance <? price)%float; simpl; repeat split; congruence.
Qed.

(** X20. The customer's view colours the pending amount red exactly
    when the payment the form derived is UNPAID, as long as the
    remaining amount is a number; when it is not a number (NaN) the
    amount is shown green although the status is UNPAID. *)
Theorem pending_colour_agrees_with_status :
  forall price advance : float,
    let p := OrderForm.derivePayment price advance in
    (is_nan (remainingAmount p) = false ->
     (OrderColours.pendingAmount p = OrderColours.red <-> pstatus p = UNPAID)) /\
    (is_nan (remainingAmount p) = true ->
     OrderColours.pendingAmount p = OrderColours.green /\ pstatus p = UNPAID).
Proof.
  intros price advance p. subst p.
  unfold OrderColours.pendingAmount, OrderForm.derivePayment. simpl.
  set (r := OrderForm.due _).
  rewrite FloatAxioms.ltb_spec, FloatAxioms.leb_spec, Prim2SF_zero.
  split.
  - intros Hnan.
    assert (Hr : Prim2SF r <> S754_nan).
    { intros E. apply is_nan_spec in E. congruence. }
    destruct (Prim2SF r) as [s|s| |s m e]; try congruence;
      try destruct s; simpl; split; congruence.
  - intros Hnan. apply is_nan_spec in Hnan. rewrite Hnan. simpl.
    split; reflexivity.
Qed.

(** ** The measurement grid, again *)

Lemma orDash_notBlank (v : FieldValue) : notBlank (orDash v).
Proof.
  destruct v as [s|x]; simpl.
  - destruct s; simpl; discriminate.
  - destruct (Js.numberTruthy x) eqn:E; simpl; [exact E | discriminate].
Qed.

(** X21. No box of the measurement grid is blank, in either view: each
    shows a non-empty text or a non-zero number, the dash standing for
    an empty text, a zero and a NaN. *)
Theorem grid_boxes_are_never_blank :
  forall order : Order,
    Forall (fun c => notBlank (cell_value c))
           (omap (fun c => c) (OrderCard.measurementGrid order)) /\
    Forall (fun c => notBlank (cell_value c))
           (omap (fun c => c) (CustomerOrderView.measurementGrid order)) /\
    (forall v, orDash v = VStr "-" <->
               v = VStr "" \/ v = VStr "-" \/
               exists x, v = VNum x /\ Js.numberTruthy x = false).
Proof.
  intros order. split; [|split].
  - unfold OrderCard.measurementGrid. cbv -[orDash notBlank].
    repeat (apply List.Forall_cons; [apply orDash_notBlank|]).
    apply List.Forall_nil.
  - unfold CustomerOrderView.measurementGrid. cbv -[orDash notBlank].
    repeat (apply List.Forall_cons; [apply orDash_notBlank|]).
    apply List.Forall_nil.
  - intros v. destruct v as [s|x]; simpl.
    + destruct s as [|a s]; simpl.
      * split; [left; reflexivity | reflexivity].
      * split; [intros H; right; left; exact H|].
        intros [H|[H|(x & H & _)]]; [discriminate | exact H | discriminate].
    + destruct (Js.numberTruthy x) eqn:E.
      * split; [discriminate|].
        intros [H|[H|(y & [= <-] & Hy)]]; [discriminate | discriminate | congruence].
      * split; [intros _; right; right; exists x; auto | reflexivity].
Qed.

(** ** The further properties on the sample data *)

Lemma longer_term_narrows_search_witness :
  isSubstring "ali" "ali k" /\
  isSubstring (Js.toLowerCaseAscii "ali") (Js.toLowerCaseAscii "ali k") /\
  In Sample.ali
     (TailorDashboard.filteredCustomers Js.toLowerCaseAscii Sample.state "ali").
Proof.
  assert (H : isSubstring "ali" "ali k")
    by (exists EmptyString, " k"; reflexivity).
  assert (H' : isSubstring (Js.toLowerCaseAscii "ali")
                 (Js.toLowerCaseAscii "ali k"))
    by (exists EmptyString, " k"; reflexivity).
  split; [exact H|]. split; [exact H'|].
  apply (proj1 (longer_term_narrows_search Js.toLowerCaseAscii Sample.state
                  "ali" "ali k" H H')).
  left. reflexivity.
Defined.

Lemma filteredOrders_resolved_customer_witness :
  "khan" <> EmptyString /\
  NoDup (List.map cid (customers Sample.state)) /\
  In Sample.ali (customers Sample.state) /\
  cid Sample.ali = customerId (data Sample.order1) /\
  In Sample.order1
     (TailorDashboard.filteredOrders Js.toLowerCaseAscii Sample.state "khan").
Proof.
  assert (H1 : "khan" <> EmptyString) by discriminate.
  assert (H2 : NoDup (List.map cid (customers Sample.state)))
    by apply NoDup_singleton.
  assert (H3 : In Sample.ali (customers Sample.state))
    by (left; reflexivity).
  split; [exact H1|]. split; [exact H2|]. split; [exact H3|].
  split; [reflexivity|].
  apply (proj2 (filteredOrders_resolved_customer Js.toLowerCaseAscii
                  Sample.state "khan" Sample.order1 Sample.ali H1 H2 H3
                  eq_refl)).
  split; [left; reflexivity|]. right.
  apply includes_isSubstring. reflexivity.
Defined.

Lemma login_opens_own_portal_witness :
  NoDup (List.map cid (customers Sample.state)) /\
  fst (App.loginAsCustomer Sample.state "03001234567") = true /\
  exists (c : Customer) (shown : list Order),
    mobileNumber c = "03001234567" /\
    AppScreen.render false (snd (App.loginAsCustomer Sample.state "03001234567"))
    = AppScreen.CustomerDashboard (CustomerDashboard.Portal c shown).
Proof.
  assert (H : NoDup (List.map cid (customers Sample.state)))
    by apply NoDup_singleton.
  split; [exact H|]. split; [reflexivity|].
  destruct (login_opens_own_portal Sample.state "03001234567" H eq_refl)
    as (c & shown & _ & Hm & Hscreen & _).
  exists c, shown. split; [exact Hm | exact Hscreen].
Defined.

Lemma later_duplicate_mobile_cannot_login_witness :
  customers SampleTwins.state = [] ++ Sample.ali :: [] ++ SampleTwins.twin :: [] /\
  NoDup (List.map cid (customers SampleTwins.state)) /\
  mobileNumber Sample.ali = mobileNumber SampleTwins.twin /\
  fst (App.loginAsCustomer SampleTwins.state "03001234567") = true /\
  currentUser (snd (App.loginAsCustomer SampleTwins.state "03001234567")) <>
  Some {| role := CUSTOMER; uid := Some (cid SampleTwins.twin) |}.
Proof.
  assert (H : NoDup (List.map cid (customers SampleTwins.state))).
  { apply NoDup_cons. split; [|apply NoDup_singleton].
    intros Hin. apply list_elem_of_In in Hin. destruct Hin as [E|[]].
    discriminate. }
  split; [reflexivity|]. split; [exact H|]. split; [reflexivity|].
  split; [reflexivity|].
  apply (later_duplicate_mobile_cannot_login SampleTwins.state [] [] []
           Sample.ali SampleTwins.twin "03001234567" eq_refl H eq_refl eq_refl).
Defined.

Lemma unrefreshed_send_overwrites_witness :
  Sample.col !! "ORD1abc" = Some Sample.doc /\
  exists (col1 col2 : gmap string OrderDoc) (d2 : OrderDoc),
    App.handleSendMessage (App.ordersOfSnapshot Sample.col) Sample.col
      "0.4fzyo82mvyr" "t1" "ORD1abc" "u1" "e1" = Some col1 /\
    App.handleSendMessage (App.ordersOfSnapshot Sample.col) col1
      "0.9k2j5h1x7qb" "t2" "ORD1abc" "u2" "e2" = Some col2 /\
    col2 !! "ORD1abc" = Some d2 /\
    messages d2 =
    [ {| mid := "9k2j5h1x7"; urdu := "u2"; english := "e2"; timestamp := "t2" |} ].
Proof.
  split; [reflexivity|].
  destruct (unrefreshed_send_overwrites Sample.col "ORD1abc" Sample.doc
              "0.4fzyo82mvyr" "t1" "u1" "e1" "0.9k2j5h1x7qb" "t2" "u2" "e2"
              eq_refl)
    as (col1 & col2 & d1 & d2 & H1 & _ & _ & H2 & H3 & H4 & _).
  exists col1, col2, d2. split; [exact H1|]. split; [exact H2|].
  split; [exact H3 | exact H4].
Defined.

Lemma sample_order1_listed : In Sample.order1 (App.ordersOfSnapshot Sample.col).
Proof.
  apply (proj2 (ordersOfSnapshot_In Sample.col Sample.order1)). reflexivity.
Qed.

Lemma unrefreshed_upload_overwrites_witness :
  In Sample.order1 (App.ordersOfSnapshot Sample.col) /\
  exists (col1 col2 : gmap string OrderDoc) (d2 : OrderDoc),
    tailorUploadsPhoto Sample.col Sample.order1 "P1" = Some col1 /\
    customerUploadsPhoto col1 Sample.order1 "P2" = Some col2 /\
    col2 !! "ORD1abc" = Some d2 /\
    photos d2 = Some ["P2"].
Proof.
  split; [exact sample_order1_listed|].
  destruct (unrefreshed_upload_overwrites Sample.col Sample.order1 "P1" "P2"
              sample_order1_listed)
    as (col1 & col2 & d1 & d2 & H1 & _ & _ & _ & H2 & H3 & H4 & _).
  exists col1, col2, d2. split; [exact H1|]. split; [exact H2|].
  split; [exact H3 | exact H4].
Defined.

Lemma status_and_message_commute_witness :
  Sample.col !! "ORD1abc" = Some Sample.doc /\
  exists (a b final : gmap string OrderDoc) (df : OrderDoc),
    App.handleUpdateStatus Sample.col "ORD1abc" READY = Some a /\
    App.handleSendMessage (App.ordersOfSnapshot a) a
      "0.4fzyo82mvyr" "t1" "ORD1abc" "u1" "e1" = Some final /\
    App.handleSendMessage (App.ordersOfSnapshot Sample.col) Sample.col
      "0.4fzyo82mvyr" "t1" "ORD1abc" "u1" "e1" = Some b /\
    App.handleUpdateStatus b "ORD1abc" READY = Some final /\
    final !! "ORD1abc" = Some df /\
    status df = READY /\
    messages df =
    [ {| mid := "4fzyo82mv"; urdu := "u1"; english := "e1"; timestamp := "t1" |} ].
Proof.
  split; [reflexivity|].
  destruct (status_and_message_commute Sample.col "ORD1abc" Sample.doc READY
              "0.4fzyo82mvyr" "t1" "u1" "e1" eq_refl)
    as (a & b & final & df & H1 & H2 & H3 & H4 & H5 & H6 & H7 & _).
  exists a, b, final, df. repeat split; assumption.
Defined.

Lemma status_last_write_wins_witness :
  Sample.col !! "ORD1abc" = Some Sample.doc /\
  App.handleUpdateStatus Sample.col "ORD1abc" (status Sample.doc)
  = Some Sample.col.
Proof.
  split; [reflexivity|].
  exact (proj2 (status_last_write_wins Sample.col "ORD1abc" Sample.doc
                  STITCHING READY eq_refl)).
Defined.

Lemma handleAddOrder_adds_one_witness :
  Sample.col !! "ORD3new" = None /\
  List.length
    (App.ordersOfSnapshot
       (App.handleAddOrder Sample.col "ORD3new" Sample.created
          (OrdersTab.submittedOrder "c1" Sample.meas 1500 1500)))
  = S (List.length (App.ordersOfSnapshot Sample.col)).
Proof.
  split; [reflexivity|].
  exact (proj2 (handleAddOrder_adds_one Sample.col "ORD3new" Sample.created
                  (OrdersTab.submittedOrder "c1" Sample.meas 1500 1500)
                  eq_refl)).
Defined.

Lemma sample_world_step : rtc Session.step SampleSession.world0 SampleSession.world1.
Proof. apply rtc_once. exact (Session.step_snapshot SampleSession.world0). Qed.

Lemma orders_persist_with_fixed_fields_witness :
  rtc Session.step SampleSession.world0 SampleSession.world1 /\
  Session.store SampleSession.world0 !! "ORD1abc" = Some Sample.doc /\
  exists d' : OrderDoc,
    Session.store SampleSession.world1 !! "ORD1abc" = Some d' /\
    payment d' = payment Sample.doc.
Proof.
  split; [exact sample_world_step|]. split; [reflexivity|].
  destruct (orders_persist_with_fixed_fields SampleSession.world0
              SampleSession.world1 "ORD1abc" Sample.doc sample_world_step
              eq_refl)
    as (d' & H1 & _ & _ & H2 & _).
  exists d'. split; [exact H1 | exact H2].
Defined.

Lemma sample_world_listed : In Sample.order1 (Session.view SampleSession.world1).
Proof.
  apply (proj2 (ordersOfSnapshot_In SampleSession.store1 Sample.order1)).
  reflexivity.
Qed.

Lemma listed_order_updates_are_accepted_witness :
  Session.reachable SampleSession.world1 /\
  In Sample.order1 (Session.view SampleSession.world1) /\
  is_Some (App.handleUpdateStatus (Session.store SampleSession.world1)
             "ORD1abc" DELIVERED).
Proof.
  split; [exact sample_world_reachable|].
  split; [exact sample_world_listed|].
  exact (proj1 (listed_order_updates_are_accepted SampleSession.world1
                  Sample.order1 sample_world_reachable sample_world_listed
                  DELIVERED "0.4fzyo82mvyr" "t1" "u1" "e1" "P1")).
Defined.

Lemma session_orders_are_well_formed_witness :
  Session.reachable SampleSession.world1 /\
  (exists i, Session.store SampleSession.world1 !! i = Some Sample.doc) /\
  remainingAmount (payment Sample.doc)
  = (stitchingPrice (payment Sample.doc)
     - advancePaid (payment Sample.doc))%float.
Proof.
  assert (H : exists i, Session.store SampleSession.world1 !! i
                        = Some Sample.doc)
    by (exists "ORD1abc"; reflexivity).
  split; [exact sample_world_reachable|]. split; [exact H|].
  exact (proj1 (session_orders_are_well_formed SampleSession.world1
                  sample_world_reachable Sample.doc (or_introl H))).
Defined.

Lemma derivePayment_compares_price_and_advance_witness :
  is_finite 1500 = true /\ is_finite 500 = true /\
  (pstatus (OrderForm.derivePayment 1500 500) = UNPAID <->
   (500 <? 1500)%float = true).
Proof.
  split; [reflexivity|]. split; [reflexivity|].
  exact (proj1 (proj2 (derivePayment_compares_price_and_advance 1500 500
                         eq_refl eq_refl))).
Defined.
